(** * The terminal session controller of [src/components/terminal/terminal.ts]

    A shallow embedding of the [Terminal] class: its fields, the DOM state it
    reads and writes (the input field's value and the children of the output
    element) and the timers it schedules are one record, and every method is
    a function from this record to this record.

    Modelling conventions.
    - A JavaScript string is the [string] of the bytes of its UTF-8
      encoding, so that the characters of ASCII are one byte each and the
      texts of the source are written as they are. [trim] strips all the
      white space and line terminators of ECMAScript, in their encoding.
      [toLowerCase] puts the letters A..Z of an ASCII text in lower case
      and, for a text with other characters, applies the lower-casing of
      the Unicode Character Database, which is a parameter of the model:
      what is proved holds whatever this table is, one theorem apart, which
      needs the texts of the table to be in lower case already.
    - [historyIndex] is a JavaScript number that only ever holds small
      integers: it is a [Z].
    - [this.pages] is an object literal: [Object.keys] lists its own keys in
      insertion order, while a property read [this.pages[k]] also finds the
      properties inherited from [Object.prototype].
    - [handleInput] only recomputes the width of the input field and
      [scrollToBottom] only scrolls: neither is part of the state. *)

From Stdlib Require Import ZArith List String Ascii Bool Lia.
Import ListNotations.

Local Open Scope Z_scope.
Local Open Scope list_scope.
Local Open Scope string_scope.

(** ** JavaScript string primitives used by the class *)

Module Js.

(** The white space that [String.prototype.trim] removes, in UTF-8: the
    characters U+0009 to U+000D and U+0020, of one byte; U+00A0, of two
    bytes; U+1680, U+2000 to U+200A, U+2028, U+2029, U+202F, U+205F,
    U+3000 and U+FEFF, of three bytes. *)
Definition is_whitespace (c : ascii) : bool :=
  let n := nat_of_ascii c in
  ((9 <=? n) && (n <=? 13))%nat || (n =? 32)%nat.

Definition is_whitespace2 (c d : ascii) : bool :=
  ((nat_of_ascii c =? 194) && (nat_of_ascii d =? 160))%nat.

Definition is_whitespace3 (c d e : ascii) : bool :=
  let c := nat_of_ascii c in
  let d := nat_of_ascii d in
  let e := nat_of_ascii e in
  (((c =? 225) && (d =? 154) && (e =? 128))
   || ((c =? 226) && (d =? 128)
       && (((128 <=? e) && (e <=? 138))
           || (e =? 168) || (e =? 169) || (e =? 175)))
   || ((c =? 226) && (d =? 129) && (e =? 159))
   || ((c =? 227) && (d =? 128) && (e =? 128))
   || ((c =? 239) && (d =? 187) && (e =? 191)))%nat.

(** Three characters outside ASCII, in UTF-8: the no-break space U+00A0
    and the byte order mark U+FEFF, which are white space, and the Kelvin
    sign U+212A, whose lower case is the letter k. *)
Definition nbsp : string :=
  String (ascii_of_nat 194) (String (ascii_of_nat 160) EmptyString).

Definition bom : string :=
  String (ascii_of_nat 239)
    (String (ascii_of_nat 187) (String (ascii_of_nat 191) EmptyString)).

Definition kelvin : string :=
  String (ascii_of_nat 226)
    (String (ascii_of_nat 132) (String (ascii_of_nat 170) EmptyString)).

(** The text that follows the white space character at the head of a text,
    when there is one. *)
Definition behead (s : string) : option string :=
  match s with
  | EmptyString => None
  | String c r =>
      if is_whitespace c then Some r
      else match r with
           | EmptyString => None
           | String d r1 =>
               if is_whitespace2 c d then Some r1
               else match r1 with
                    | EmptyString => None
                    | String e r2 =>
                        if is_whitespace3 c d e then Some r2 else None
                    end
           end
  end.

Fixpoint trimStart (s : string) : string :=
  match s with
  | EmptyString => EmptyString
  | String c r =>
      if is_whitespace c then trimStart r
      else match r with
           | EmptyString => s
           | String d r1 =>
               if is_whitespace2 c d then trimStart r1
               else match r1 with
                    | EmptyString => s
                    | String e r2 =>
                        if is_whitespace3 c d e then trimStart r2 else s
                    end
           end
  end.

(** A text made of white space only. *)
Fixpoint blank (s : string) : bool :=
  match s with
  | EmptyString => true
  | String c r =>
      if is_whitespace c then blank r
      else match r with
           | EmptyString => false
           | String d r1 =>
               if is_whitespace2 c d then blank r1
               else match r1 with
                    | EmptyString => false
                    | String e r2 =>
                        if is_whitespace3 c d e then blank r2 else false
                    end
           end
  end.

(** The longest end of white space is dropped. *)
Fixpoint trimEnd (s : string) : string :=
  match s with
  | EmptyString => EmptyString
  | String c r => if blank s then EmptyString else String c (trimEnd r)
  end.

Definition trim (s : string) : string := trimEnd (trimStart s).

Definition lower_char (c : ascii) : ascii :=
  let n := nat_of_ascii c in
  if ((65 <=? n) && (n <=? 90))%nat then ascii_of_nat (n + 32) else c.

(** A text of ASCII characters only. *)
Fixpoint ascii_only (s : string) : bool :=
  match s with
  | EmptyString => true
  | String c r => (nat_of_ascii c <? 128)%nat && ascii_only r
  end.

(** Lower case for the letters A to Z. *)
Fixpoint lower_ascii (s : string) : string :=
  match s with
  | EmptyString => EmptyString
  | String c r => String (lower_char c) (lower_ascii r)
  end.

Section CaseConversion.

(** The lower-casing of the Unicode Character Database, which
    [String.prototype.toLowerCase] applies and which is no part of the
    repository. *)
Variable unicode_lower : string -> string.

(** [s.toLowerCase()]: an ASCII text needs no table, its letters A to Z
    are put in lower case; any other text goes through the database. *)
Definition toLowerCase (s : string) : string :=
  if ascii_only s then lower_ascii s else unicode_lower s.

End CaseConversion.

(** [s.split(' ')]: the pieces between single spaces; never empty. *)
Fixpoint split_space (s : string) : list string :=
  match s with
  | EmptyString => [EmptyString]
  | String c r =>
      if Ascii.eqb c " "%char then EmptyString :: split_space r
      else match split_space r with
           | p :: ps => String c p :: ps
           | [] => [String c EmptyString]
           end
  end.

(** [s.startsWith(p)]. *)
Fixpoint startsWith (s p : string) : bool :=
  match p, s with
  | EmptyString, _ => true
  | String _ _, EmptyString => false
  | String a p', String b s' => Ascii.eqb a b && startsWith s' p'
  end.

(** [l.join(sep)]. *)
Fixpoint join (sep : string) (l : list string) : string :=
  match l with
  | [] => EmptyString
  | [x] => x
  | x :: xs => x ++ sep ++ join sep xs
  end.

(** The values a property read of [this.pages] can produce. *)
Inductive Value : Type :=
| Undefined
| Str (s : string)
| Builtin (name : string).

(** [ToBoolean]. *)
Definition truthy (v : Value) : bool :=
  match v with
  | Undefined => false
  | Str s => negb (s =? "")
  | Builtin _ => true
  end.

(** The properties every object literal inherits from [Object.prototype];
    all of them are functions, except [__proto__], an accessor that returns
    the prototype object. *)
Definition Object_prototype : list string :=
  [ "constructor"; "__defineGetter__"; "__defineSetter__"; "hasOwnProperty";
    "__lookupGetter__"; "__lookupSetter__"; "isPrototypeOf";
    "propertyIsEnumerable"; "toString"; "valueOf"; "__proto__";
    "toLocaleString" ].

Definition mem (k : string) (l : list string) : bool :=
  existsb (String.eqb k) l.

Fixpoint own (o : list (string * string)) (k : string) : option string :=
  match o with
  | [] => None
  | (k', v) :: o' => if k' =? k then Some v else own o' k
  end.

(** [o[k]] for an object literal [o] with string values. *)
Definition get (o : list (string * string)) (k : string) : Value :=
  match own o k with
  | Some v => Str v
  | None => if mem k Object_prototype then Builtin k else Undefined
  end.

(** [Object.keys(o)]. *)
Definition keys (o : list (string * string)) : list string := map fst o.

(** Assigning an array element to [input.value]: a missing element is
    [undefined], which the setter converts to the text "undefined". *)
Definition DOMString (v : option string) : string :=
  match v with
  | Some s => s
  | None => "undefined"
  end.

End Js.

Section Terminal.

(** The lower-casing of the Unicode Character Database that the browser
    applies in [toLowerCase]; it is lower case already after one pass. *)
Variable unicode_lower : string -> string.

Hypothesis unicode_lower_stable :
  forall s : string,
    Js.toLowerCase unicode_lower (unicode_lower s) = unicode_lower s.

Abbreviation toLowerCase := (Js.toLowerCase unicode_lower).

(** ** The state of a terminal *)

(** One [div] appended to the output element. *)
Record Line : Type := mkLine { text : string; className : string }.

(** One [setTimeout] call of [handleCd]: its callback assigns
    [this.pages[target]] to [window.location.href]. *)
Record Timer : Type := mkTimer { target : string; delay : Z }.

Record Terminal : Type := mkTerminal {
  history : list string;
  historyIndex : Z;
  currentPath : string;
  value : string;          (* this.input.value *)
  output : list Line;      (* the children of this.output *)
  appended : list Line;    (* every line addOutput has appended so far *)
  timers : list Timer      (* the callbacks scheduled so far *)
}.

Definition pages : list (string * string) :=
  [ ("about", "/about");
    ("resume", "/resume");
    ("projects", "/projects");
    ("contact", "/contact");
    ("blog", "/blog");
    ("tools", "/tools");
    ("templates", "/templates");
    ("privacy", "/privacy");
    ("terms", "/terms");
    ("home", "/");
    ("index", "/");
    ("cheesecake", "/cheesecake") ].

(** *** Field updates *)

Definition set_history (h : list string) (t : Terminal) : Terminal :=
  mkTerminal h (historyIndex t) (currentPath t) (value t) (output t)
             (appended t) (timers t).

Definition set_historyIndex (i : Z) (t : Terminal) : Terminal :=
  mkTerminal (history t) i (currentPath t) (value t) (output t)
             (appended t) (timers t).

Definition set_currentPath (p : string) (t : Terminal) : Terminal :=
  mkTerminal (history t) (historyIndex t) p (value t) (output t)
             (appended t) (timers t).

Definition set_value (v : string) (t : Terminal) : Terminal :=
  mkTerminal (history t) (historyIndex t) (currentPath t) v (output t)
             (appended t) (timers t).

(** Handlers run one after the other on the same object. *)
Definition Handler : Type := Terminal -> Terminal.

Definition andThen (f g : Handler) : Handler := fun t => g (f t).

Notation "f >> g" := (andThen f g) (at level 61, left associativity).

(** ** The methods *)

Definition addOutput (txt cls : string) : Handler := fun t =>
  let line := mkLine txt ("terminal-line " ++ cls) in
  mkTerminal (history t) (historyIndex t) (currentPath t) (value t)
             (output t ++ [line])%list (appended t ++ [line])%list (timers t).

Definition addPrompt : Handler := fun t => t.

Definition setTimeout (tgt : string) (ms : Z) : Handler := fun t =>
  mkTerminal (history t) (historyIndex t) (currentPath t) (value t)
             (output t) (appended t) (timers t ++ [mkTimer tgt ms])%list.

(** What a timer assigns to [window.location.href] when it fires. *)
Definition fire (tm : Timer) : Js.Value := Js.get pages (target tm).

Definition not_home (p : string) : bool :=
  negb (p =? "home") && negb (p =? "index").

Definition listed : list string := filter not_home (Js.keys pages).

Definition handleCd (args : list string) : Handler :=
  match args with
  | [] => set_currentPath "/" >> addOutput "~" "" >> addPrompt
  | a :: _ =>
      let tgt := toLowerCase a in
      if Js.truthy (Js.get pages tgt) then
        addOutput ("Navigating to " ++ tgt ++ "...") "" >> setTimeout tgt 300
      else
        addOutput ("cd: no such page: " ++ tgt) ""
        >> addOutput ("Available pages: " ++ Js.join ", " listed) ""
        >> addPrompt
  end.

Definition handleLs : Handler :=
  addOutput (Js.join "  " listed) "" >> addPrompt.

Definition handleHelp : Handler :=
  addOutput "Available commands:" ""
  >> addOutput "  cd <page>     - Navigate to a page (e.g., cd resume)" ""
  >> addOutput "  ls            - List available pages" ""
  >> addOutput "  pwd           - Show current location" ""
  >> addOutput "  clear         - Clear terminal output" ""
  >> addOutput "  help          - Show this help message" ""
  >> addOutput "" ""
  >> addOutput "Available pages:" ""
  >> addOutput ("  " ++ Js.join ", " listed) ""
  >> addPrompt.

Definition handleClear : Handler :=
  (fun t => mkTerminal (history t) (historyIndex t) (currentPath t) (value t)
                       [] (appended t) (timers t))
  >> addPrompt.

Definition handlePwd : Handler :=
  (fun t => addOutput (currentPath t) "" t) >> addPrompt.

Definition handleCat (args : list string) : Handler :=
  match args with
  | [] => addOutput "cat: missing file operand" ""
          >> addOutput "Try: cat <filename>" ""
          >> addPrompt
  | a :: _ => addOutput ("cat: " ++ a ++ ": No such file or directory") ""
              >> addPrompt
  end.

Definition prompt : string := "visitor@marlonjr:~$ ".

(** The double quote character, as a string. *)
Definition dquote : string := String (ascii_of_nat 34) EmptyString.

(** The [switch] of [executeCommand]. *)
Definition dispatch (cmd : string) (args : list string) : Handler :=
  if cmd =? "cd" then handleCd args
  else if cmd =? "ls" then handleLs
  else if cmd =? "help" then handleHelp
  else if cmd =? "clear" then handleClear
  else if cmd =? "pwd" then handlePwd
  else if cmd =? "cat" then handleCat args
  else addOutput ("Command not found: " ++ cmd
                  ++ ". Type " ++ dquote ++ "help" ++ dquote
                  ++ " for available commands.") ""
       >> addPrompt.

(** [parts[0].toLowerCase()] and [parts.slice(1)]. *)
Definition commandName (command : string) : string :=
  toLowerCase (hd "" (Js.split_space command)).

Definition commandArgs (command : string) : list string :=
  tl (Js.split_space command).

Definition executeCommand (command : string) : Handler := fun t =>
  if command =? "" then addPrompt t
  else
    ((fun t => set_history (history t ++ [command])%list t)
     >> addOutput (prompt ++ command) "command"
     >> dispatch (commandName command) (commandArgs command)) t.

(** [this.history[i]]: [None] stands for [undefined]. *)
Definition history_at (t : Terminal) (i : Z) : option string :=
  if (i <? 0)%Z then None else nth_error (history t) (Z.to_nat i).

Definition handleTabCompletion : Handler := fun t =>
  let input := Js.trim (value t) in
  let parts := Js.split_space input in
  let command := hd "" parts in
  let arg := nth 1 parts "" in
  if (command =? "cd") && negb (arg =? "") then
    let matches :=
      filter (fun page => Js.startsWith page (toLowerCase arg))
             (Js.keys pages) in
    if (List.length matches =? 1)%nat then
      set_value ("cd " ++ Js.DOMString (nth_error matches 0)) t
    else if (1 <? List.length matches)%nat then
      (addOutput (Js.join "  " matches) "" >> addPrompt) t
    else t
  else t.

Definition handleKeyDown (key : string) : Handler := fun t =>
  if key =? "Enter" then
    (executeCommand (Js.trim (value t))
     >> set_value ""
     >> set_historyIndex (-1)) t
  else if key =? "ArrowUp" then
    if (0 <? List.length (history t))%nat then
      let t1 :=
        if (historyIndex t =? -1)%Z
        then set_historyIndex (Z.of_nat (List.length (history t))) t
        else t in
      if (0 <? historyIndex t1)%Z then
        let t2 := set_historyIndex (historyIndex t1 - 1) t1 in
        set_value (Js.DOMString (history_at t2 (historyIndex t2))) t2
      else t1
    else t
  else if key =? "ArrowDown" then
    if (0 <=? historyIndex t)%Z then
      let t1 := set_historyIndex (historyIndex t + 1) t in
      if (Z.of_nat (List.length (history t1)) <=? historyIndex t1)%Z then
        (set_historyIndex (-1) >> set_value "") t1
      else
        set_value (Js.DOMString (history_at t1 (historyIndex t1))) t1
    else t
  else if key =? "Tab" then handleTabCompletion t
  else t.

(** The object the constructor leaves behind: the field initialisers, then
    [init] with its three welcome lines. *)
Definition fresh : Terminal := mkTerminal [] (-1) "/" "" [] [] [].

Definition init : Terminal :=
  (addOutput "Welcome to Marlon Ausby Junior's website!" ""
   >> addOutput ("Type " ++ dquote ++ "help" ++ dquote
                 ++ " to see available commands.") ""
   >> addOutput "" "") fresh.

(** ** Sessions *)

(** What happens to a terminal: a key goes down in the input field, or the
    visitor's editing (the default action of every other key) leaves a new
    text in it. *)
Inductive Event : Type :=
| KeyDown (key : string)
| Edit (v : string).

Definition handle (e : Event) : Handler :=
  match e with
  | KeyDown key => handleKeyDown key
  | Edit v => set_value v
  end.

Definition run (es : list Event) : Handler := fun t =>
  fold_left (fun t e => handle e t) es t.

(** Typing [v] over the field's text and pressing Enter. *)
Definition commit (v : string) : list Event := [Edit v; KeyDown "Enter"].

Inductive reachable : Terminal -> Prop :=
| reachable_init : reachable init
| reachable_step : forall t e, reachable t -> reachable (handle e t).

(** The echoed line of a command. *)
Definition echo (command : string) : Line :=
  mkLine (prompt ++ command) "terminal-line command".

(** A line that is not an echoed command. *)
Definition plain (l : Line) : Prop := className l = "terminal-line ".

(** Pressing the same key [n] times. *)
Fixpoint press (n : nat) (key : string) : Handler :=
  match n with
  | O => fun t => t
  | S n' => handleKeyDown key >> press n' key
  end.

(** ** Notions used by the statements *)

(** A word: a text without a space. *)
Fixpoint word (s : string) : bool :=
  match s with
  | EmptyString => true
  | String c r => negb (Ascii.eqb c " "%char) && word r
  end.

(** The cursor is the sentinel or the index of an entry. *)
Definition cursor_ok (t : Terminal) : Prop :=
  historyIndex t = -1 \/
  0 <= historyIndex t < Z.of_nat (List.length (history t)).

(** The destination paths of the table, each one once. *)
Definition destinations : list string := nodup string_dec (map snd pages).

(** The aliases of a path. *)
Definition aliases (path : string) : list string :=
  map fst (filter (fun kv => snd kv =? path) pages).

(** The keys that complete a prefix. *)
Definition completions (arg : string) : list string :=
  filter (fun page => Js.startsWith page (toLowerCase arg)) (Js.keys pages).

(** The class of an echoed command. *)
Definition is_echo (l : Line) : bool :=
  className l =? "terminal-line command".

(** The names the [switch] of [executeCommand] knows. *)
Definition commands : list string :=
  ["cd"; "ls"; "help"; "clear"; "pwd"; "cat"].

(** A timer as [handleCd] schedules them: 300 milliseconds, and a target
    whose property read is truthy. *)
Definition cd_timer (tm : Timer) : Prop :=
  delay tm = 300 /\ Js.truthy (fire tm) = true.

(** A text that [executeCommand] records: not empty, and as [trim] leaves
    it. *)
Definition trimmed (c : string) : Prop := c <> "" /\ Js.trim c = c.

(** What every state of a session satisfies: the entries of the history
    are trimmed texts; the echoed lines ever appended are the echoes of the
    history, in order; the output log is the end of what was appended; the
    timers are those of [cd], at most one for each entry. *)
Definition session_ok (t : Terminal) : Prop :=
  Forall trimmed (history t) /\
  filter is_echo (appended t) = map echo (history t) /\
  (exists before : list Line, appended t = (before ++ output t)%list) /\
  Forall cd_timer (timers t) /\
  (List.length (timers t) <= List.length (history t))%nat.

(** ** Proof steps *)

(** Running the handlers of a method one after the other, innermost first. *)
Ltac run_handlers :=
  cbv beta iota zeta delta
    [handleCd handleLs handleHelp handleClear handlePwd handleCat
     andThen addPrompt addOutput setTimeout set_history set_historyIndex
     set_currentPath set_value
     history historyIndex currentPath value output appended timers].

(** The lines of a handler follow the ones already there. *)
Ltac lines := rewrite <- ?app_assoc; reflexivity.

Ltac all_plain := repeat constructor.

Ltac emitted :=
  run_handlers; eexists;
  split; [lines | split; [all_plain | split; [lines | repeat split]]].

(** Running a command whose text is known on any terminal: everything is
    computed, but the lists of the terminal, which stay as they are. *)
Ltac run_command :=
  cbv -[List.app]; rewrite <- ?app_assoc; repeat split.

(** ** Examples *)

Example trim_ex : Js.trim "   cd  Resume  " = "cd  Resume".
Proof. reflexivity. Qed.

Example split_ex : Js.split_space "cd  x y" = ["cd"; ""; "x"; "y"].
Proof. reflexivity. Qed.

(** ** Strings *)

Lemma trimStart_behead :
  forall s : string,
    Js.trimStart s
    = match Js.behead s with
      | Some r => Js.trimStart r
      | None => s
      end.
Proof.
  intros [|c r]; [reflexivity|].
  change (Js.trimStart (String c r)) with
    (if Js.is_whitespace c then Js.trimStart r
     else match r with
          | EmptyString => String c r
          | String d r1 =>
              if Js.is_whitespace2 c d then Js.trimStart r1
              else match r1 with
                   | EmptyString => String c r
                   | String e r2 =>
                       if Js.is_whitespace3 c d e then Js.trimStart r2
                       else String c r
                   end
          end).
  cbn [Js.behead]. destruct (Js.is_whitespace c); [reflexivity|].
  destruct r as [|d r1]; [reflexivity|].
  destruct (Js.is_whitespace2 c d); [reflexivity|].
  destruct r1 as [|e r2]; [reflexivity|].
  destruct (Js.is_whitespace3 c d e); reflexivity.
Qed.

Lemma blank_behead :
  forall s : string,
    Js.blank s
    = match s with
      | EmptyString => true
      | String _ _ =>
          match Js.behead s with
          | Some r => Js.blank r
          | None => false
          end
      end.
Proof.
  intros [|c r]; [reflexivity|].
  change (Js.blank (String c r)) with
    (if Js.is_whitespace c then Js.blank r
     else match r with
          | EmptyString => false
          | String d r1 =>
              if Js.is_whitespace2 c d then Js.blank r1
              else match r1 with
                   | EmptyString => false
                   | String e r2 =>
                       if Js.is_whitespace3 c d e then Js.blank r2
                       else false
                   end
          end).
  cbn [Js.behead]. destruct (Js.is_whitespace c); [reflexivity|].
  destruct r as [|d r1]; [reflexivity|].
  destruct (Js.is_whitespace2 c d); [reflexivity|].
  destruct r1 as [|e r2]; [reflexivity|].
  destruct (Js.is_whitespace3 c d e); reflexivity.
Qed.

Lemma behead_length :
  forall s r : string,
    Js.behead s = Some r -> (String.length r < String.length s)%nat.
Proof.
  intros [|c [|d [|e r']]] r; cbn [Js.behead];
    repeat match goal with
           | |- context [if ?b then _ else _] => destruct b
           end;
    intros H; try discriminate H; injection H as <-; cbn; lia.
Qed.

Lemma behead_app :
  forall s r b : string,
    Js.behead s = Some r -> Js.behead (s ++ b) = Some (r ++ b).
Proof.
  intros [|c [|d [|e r']]] r b; cbn [Js.behead String.append];
    repeat match goal with
           | |- context [if ?x then _ else _] => destruct x
           end;
    intros H; try discriminate H; injection H as <-; reflexivity.
Qed.

(** Induction on a text through the texts that are shorter. *)
Lemma shorter_ind :
  forall P : string -> Prop,
    (forall s : string,
        (forall r : string,
            (String.length r < String.length s)%nat -> P r) -> P s) ->
    forall s : string, P s.
Proof.
  intros P H s.
  assert (G : forall (n : nat) (r : string),
             (String.length r < n)%nat -> P r).
  { induction n as [|n IH]; intros r Hr; [lia|].
    apply H. intros r' Hr'. apply IH. lia. }
  apply (G (S (String.length s))). lia.
Qed.

Lemma trimStart_head :
  forall s : string, Js.behead (Js.trimStart s) = None.
Proof.
  induction s as [s IH] using shorter_ind.
  rewrite trimStart_behead. destruct (Js.behead s) as [r|] eqn:E.
  - apply IH. apply (behead_length s r E).
  - exact E.
Qed.

Lemma trimStart_fixed :
  forall s : string, Js.behead s = None -> Js.trimStart s = s.
Proof.
  intros s H. rewrite trimStart_behead, H. reflexivity.
Qed.

Lemma blank_trimStart :
  forall s : string, Js.blank (Js.trimStart s) = Js.blank s.
Proof.
  induction s as [s IH] using shorter_ind.
  rewrite trimStart_behead, (blank_behead s).
  destruct s as [|c r]; [reflexivity|].
  destruct (Js.behead (String c r)) as [r'|] eqn:E.
  - apply IH. apply (behead_length _ r' E).
  - rewrite blank_behead, E. reflexivity.
Qed.

Lemma trimEnd_eq :
  forall s : string,
    Js.trimEnd s
    = if Js.blank s then ""
      else match s with
           | EmptyString => ""
           | String c r => String c (Js.trimEnd r)
           end.
Proof. intros [|c r]; reflexivity. Qed.

Lemma trimEnd_empty_iff :
  forall s : string, Js.trimEnd s = "" <-> Js.blank s = true.
Proof.
  intros s. rewrite trimEnd_eq.
  destruct (Js.blank s) eqn:E; [tauto|].
  destruct s; [discriminate E|]. split; discriminate.
Qed.

(** [trim] returns the empty string exactly on the texts that are empty or
    made of white space only. *)
Lemma trim_empty_iff :
  forall s : string, Js.trim s = "" <-> Js.blank s = true.
Proof.
  intros s. unfold Js.trim.
  rewrite trimEnd_empty_iff, blank_trimStart. reflexivity.
Qed.

Lemma blank_app :
  forall p b : string,
    Js.blank p = true -> Js.blank b = true -> Js.blank (p ++ b) = true.
Proof.
  induction p as [p IH] using shorter_ind. intros b Hp Hb.
  destruct p as [|c r]; [exact Hb|].
  rewrite blank_behead in Hp.
  destruct (Js.behead (String c r)) as [r'|] eqn:E; [|discriminate Hp].
  rewrite blank_behead, (behead_app _ _ b E).
  cbn [String.append]. apply IH; [apply (behead_length _ _ E)|assumption..].
Qed.

(** What [trimEnd] drops is white space. *)
Lemma trimEnd_split :
  forall s : string,
  exists b : string, s = Js.trimEnd s ++ b /\ Js.blank b = true.
Proof.
  induction s as [|c r (b & Hb & Hw)].
  - exists "". split; reflexivity.
  - rewrite trimEnd_eq. destruct (Js.blank (String c r)) eqn:E.
    + exists (String c r). split; [reflexivity|exact E].
    + exists b. split; [|exact Hw].
      cbn [String.append]. rewrite <- Hb. reflexivity.
Qed.

Lemma trimEnd_idempotent :
  forall s : string, Js.trimEnd (Js.trimEnd s) = Js.trimEnd s.
Proof.
  induction s as [|c r IH]; [reflexivity|].
  rewrite (trimEnd_eq (String c r)).
  destruct (Js.blank (String c r)) eqn:E; [reflexivity|].
  rewrite trimEnd_eq, IH.
  destruct (Js.blank (String c (Js.trimEnd r))) eqn:E'; [|reflexivity].
  destruct (trimEnd_split r) as (b & Hb & Hw).
  assert (F : Js.blank (String c (Js.trimEnd r) ++ b) = true)
    by (apply blank_app; assumption).
  cbn [String.append] in F. rewrite <- Hb, E in F. discriminate F.
Qed.

Lemma trimEnd_head :
  forall s : string, Js.behead s = None -> Js.behead (Js.trimEnd s) = None.
Proof.
  intros s H. destruct (trimEnd_split s) as (b & Hb & _).
  destruct (Js.behead (Js.trimEnd s)) as [r|] eqn:E; [|reflexivity].
  apply (behead_app _ _ b) in E. rewrite <- Hb, H in E. discriminate E.
Qed.

(** A text that [trim] leaves as it is starts and ends without white
    space. *)
Lemma trim_fixed :
  forall c : string,
    Js.trim c = c -> Js.trimStart c = c /\ Js.trimEnd c = c.
Proof.
  intros c H. unfold Js.trim in H.
  assert (Hs : Js.trimStart c = c).
  { apply trimStart_fixed. rewrite <- H.
    apply trimEnd_head, trimStart_head. }
  split; [exact Hs|]. rewrite Hs in H. exact H.
Qed.

Lemma trim_idempotent :
  forall s : string, Js.trim (Js.trim s) = Js.trim s.
Proof.
  intros s. unfold Js.trim.
  rewrite (trimStart_fixed (Js.trimEnd (Js.trimStart s)))
    by apply trimEnd_head, trimStart_head.
  apply trimEnd_idempotent.
Qed.

Lemma lower_char_idempotent :
  forall c : ascii, Js.lower_char (Js.lower_char c) = Js.lower_char c.
Proof.
  intros [[] [] [] [] [] [] [] []]; reflexivity.
Qed.

Lemma lower_char_ascii :
  forall c : ascii,
    (nat_of_ascii (Js.lower_char c) <? 128)%nat
    = (nat_of_ascii c <? 128)%nat.
Proof.
  intros [[] [] [] [] [] [] [] []]; reflexivity.
Qed.

Lemma lower_ascii_idempotent :
  forall s : string,
    Js.lower_ascii (Js.lower_ascii s) = Js.lower_ascii s.
Proof.
  induction s as [|c r IH]; cbn [Js.lower_ascii]; [reflexivity|].
  rewrite lower_char_idempotent, IH. reflexivity.
Qed.

Lemma lower_ascii_ascii_only :
  forall s : string, Js.ascii_only (Js.lower_ascii s) = Js.ascii_only s.
Proof.
  induction s as [|c r IH]; cbn [Js.lower_ascii Js.ascii_only];
    [reflexivity|].
  rewrite lower_char_ascii, IH. reflexivity.
Qed.

(** Lower case is lower case already: for an ASCII text by the letters,
    for another text by the Unicode database. *)
Lemma toLowerCase_idempotent :
  forall s : string, toLowerCase (toLowerCase s) = toLowerCase s.
Proof.
  intros s. unfold toLowerCase at 2 3.
  destruct (Js.ascii_only s) eqn:E.
  - unfold toLowerCase. rewrite lower_ascii_ascii_only, E.
    apply lower_ascii_idempotent.
  - apply unicode_lower_stable.
Qed.

(** ** What each method leaves alone *)

(** The effect of the [switch]: some plain lines are appended, [clear]
    then drops the whole log, and the history, its cursor and the input
    field are not touched. *)
Lemma dispatch_effect :
  forall (cmd : string) (args : list string) (t : Terminal),
  exists rest : list Line,
    appended (dispatch cmd args t) = (appended t ++ rest)%list /\
    Forall plain rest /\
    output (dispatch cmd args t)
    = (if cmd =? "clear" then [] else output t ++ rest)%list /\
    history (dispatch cmd args t) = history t /\
    historyIndex (dispatch cmd args t) = historyIndex t /\
    value (dispatch cmd args t) = value t.
Proof.
  intros cmd args t. unfold dispatch.
  destruct (cmd =? "cd") eqn:Ecd.
  { apply String.eqb_eq in Ecd. subst cmd.
    destruct args as [|a args].
    - emitted.
    - unfold handleCd.
      destruct (Js.truthy (Js.get pages (toLowerCase a))); emitted. }
  destruct (cmd =? "ls") eqn:Els.
  { apply String.eqb_eq in Els. subst cmd. emitted. }
  destruct (cmd =? "help") eqn:Ehelp.
  { apply String.eqb_eq in Ehelp. subst cmd. emitted. }
  destruct (cmd =? "clear") eqn:Eclear.
  { run_handlers. exists []. rewrite app_nil_r.
    repeat split; all_plain. }
  destruct (cmd =? "pwd") eqn:Epwd.
  { emitted. }
  destruct (cmd =? "cat") eqn:Ecat.
  { destruct args as [|a args]; emitted. }
  emitted.
Qed.

Lemma executeCommand_nonempty :
  forall (c : string) (t : Terminal),
    c <> "" ->
    executeCommand c t
    = dispatch (commandName c) (commandArgs c)
        (addOutput (prompt ++ c) "command"
           (set_history (history t ++ [c])%list t)).
Proof.
  intros c t H. unfold executeCommand.
  destruct (c =? "") eqn:E; [apply String.eqb_eq in E; contradiction|].
  reflexivity.
Qed.

(** ** Committing a command *)

(** C1. For every input whose trimmed text [c] is not empty, pressing Enter
    appends exactly the entry [c] to the history and appends exactly one
    echoed line, [visitor@marlonjr:~$ c]: the lines [rest] that follow it
    are plain ones. The output log is the old one followed by the echoed
    line and [rest], unless the command is [clear], which leaves it empty. *)
Theorem enter_appends_history_and_echo :
  forall t : Terminal,
    Js.trim (value t) <> "" ->
    exists rest : list Line,
      history (handleKeyDown "Enter" t)
      = (history t ++ [Js.trim (value t)])%list /\
      appended (handleKeyDown "Enter" t)
      = (appended t ++ echo (Js.trim (value t)) :: rest)%list /\
      Forall plain rest /\
      ~ plain (echo (Js.trim (value t))) /\
      text (echo (Js.trim (value t)))
      = "visitor@marlonjr:~$ " ++ Js.trim (value t) /\
      output (handleKeyDown "Enter" t)
      = (if commandName (Js.trim (value t)) =? "clear" then []
         else output t ++ echo (Js.trim (value t)) :: rest)%list.
Proof.
  intros t H.
  set (c := Js.trim (value t)) in *.
  assert (E : handleKeyDown "Enter" t
              = set_historyIndex (-1) (set_value "" (executeCommand c t)))
    by reflexivity.
  rewrite E, (executeCommand_nonempty c t H).
  destruct (dispatch_effect (commandName c) (commandArgs c)
              (addOutput (prompt ++ c) "command"
                 (set_history (history t ++ [c])%list t)))
    as (rest & Ha & Hp & Ho & Hh & _ & _).
  exists rest. unfold set_historyIndex, set_value.
  cbn [history appended output]. rewrite Hh, Ha, Ho.
  repeat split.
  - unfold addOutput. cbn [appended]. rewrite <- app_assoc. reflexivity.
  - exact Hp.
  - unfold plain. simpl. discriminate.
  - destruct (commandName c =? "clear"); [reflexivity|].
    unfold addOutput. cbn [output]. rewrite <- app_assoc. reflexivity.
Qed.

(** C9. Committing a text that is empty or made of white space only, which
    [trim] turns into the empty string, changes neither the history nor the
    output log: no entry is appended, no line is emitted (and no timer is
    scheduled). *)
Theorem blank_commit_changes_nothing :
  forall t : Terminal,
    Js.blank (value t) = true ->
    Js.trim (value t) = "" /\
    history (handleKeyDown "Enter" t) = history t /\
    output (handleKeyDown "Enter" t) = output t /\
    appended (handleKeyDown "Enter" t) = appended t /\
    timers (handleKeyDown "Enter" t) = timers t.
Proof.
  intros t H. apply trim_empty_iff in H.
  assert (E : handleKeyDown "Enter" t
              = set_historyIndex (-1)
                  (set_value "" (executeCommand (Js.trim (value t)) t)))
    by reflexivity.
  rewrite E, H. repeat split.
Qed.

(** ** Browsing the history *)

(** C2. From an empty history and the sentinel cursor, after the commands
    [ls], [pwd] and [help], three Ups show [help], [pwd] and [ls], a fourth
    Up leaves [ls]; then three Downs show [pwd], [help] and the empty text,
    the cursor being back at the sentinel. *)
Theorem history_navigation_ls_pwd_help :
  forall t : Terminal,
    history t = [] ->
    historyIndex t = -1 ->
    forall t0 : Terminal,
      t0 = run (commit "ls" ++ commit "pwd" ++ commit "help")%list t ->
      history t0 = ["ls"; "pwd"; "help"] /\
      historyIndex t0 = -1 /\
      value (press 1 "ArrowUp" t0) = "help" /\
      value (press 2 "ArrowUp" t0) = "pwd" /\
      value (press 3 "ArrowUp" t0) = "ls" /\
      value (press 4 "ArrowUp" t0) = "ls" /\
      value (press 1 "ArrowDown" (press 4 "ArrowUp" t0)) = "pwd" /\
      value (press 2 "ArrowDown" (press 4 "ArrowUp" t0)) = "help" /\
      value (press 3 "ArrowDown" (press 4 "ArrowUp" t0)) = "" /\
      historyIndex (press 3 "ArrowDown" (press 4 "ArrowUp" t0)) = -1.
Proof.
  intros [h i p v o a tm] Hh Hi t0 ->. simpl in Hh, Hi. subst h i.
  repeat split; vm_compute; reflexivity.
Qed.

(** ** Invariants of a session *)

Lemma dispatch_currentPath :
  forall (cmd : string) (args : list string) (t : Terminal),
    currentPath t = "/" -> currentPath (dispatch cmd args t) = "/".
Proof.
  intros cmd args t H. unfold dispatch, handleCd, handleCat.
  repeat match goal with
         | |- context [if ?c =? ?s then _ else _] => destruct (c =? s)
         end;
    try destruct args as [|a args];
    try destruct (Js.truthy (Js.get pages (toLowerCase a)));
    run_handlers; try reflexivity; exact H.
Qed.

Lemma executeCommand_currentPath :
  forall (c : string) (t : Terminal),
    currentPath t = "/" -> currentPath (executeCommand c t) = "/".
Proof.
  intros c t H. unfold executeCommand.
  destruct (c =? ""); [exact H|].
  unfold andThen. apply dispatch_currentPath. exact H.
Qed.

(** Tab only writes the input field or appends one line. *)
Lemma handleTabCompletion_frame :
  forall t : Terminal,
    history (handleTabCompletion t) = history t /\
    historyIndex (handleTabCompletion t) = historyIndex t /\
    currentPath (handleTabCompletion t) = currentPath t /\
    timers (handleTabCompletion t) = timers t.
Proof.
  intros t. unfold handleTabCompletion.
  repeat match goal with
         | |- context [if ?c then _ else _] => destruct c
         end;
    run_handlers; repeat split.
Qed.

(** The branches of [handleKeyDown] for the two arrow keys. *)
Lemma handleKeyDown_ArrowUp :
  forall t : Terminal,
    handleKeyDown "ArrowUp" t
    = if (0 <? List.length (history t))%nat then
        let t1 :=
          if (historyIndex t =? -1)%Z
          then set_historyIndex (Z.of_nat (List.length (history t))) t
          else t in
        if (0 <? historyIndex t1)%Z then
          let t2 := set_historyIndex (historyIndex t1 - 1) t1 in
          set_value (Js.DOMString (history_at t2 (historyIndex t2))) t2
        else t1
      else t.
Proof. reflexivity. Qed.

Lemma handleKeyDown_ArrowDown :
  forall t : Terminal,
    handleKeyDown "ArrowDown" t
    = if (0 <=? historyIndex t)%Z then
        let t1 := set_historyIndex (historyIndex t + 1) t in
        if (Z.of_nat (List.length (history t1)) <=? historyIndex t1)%Z then
          (set_historyIndex (-1) >> set_value "") t1
        else
          set_value (Js.DOMString (history_at t1 (historyIndex t1))) t1
      else t.
Proof. reflexivity. Qed.

Lemma handleKeyDown_up :
  forall t : Terminal,
    cursor_ok t ->
    cursor_ok (handleKeyDown "ArrowUp" t) /\
    history (handleKeyDown "ArrowUp" t) = history t /\
    currentPath (handleKeyDown "ArrowUp" t) = currentPath t.
Proof.
  intros t H. unfold cursor_ok in *.
  rewrite handleKeyDown_ArrowUp.
  destruct (Nat.ltb_spec 0 (List.length (history t))) as [Hl|Hl];
    [|tauto].
  cbv zeta.
  destruct (Z.eqb_spec (historyIndex t) (-1)) as [Hs|Hs].
  - cbn [set_historyIndex historyIndex].
    destruct (Z.ltb_spec 0 (Z.of_nat (List.length (history t)))); [|lia].
    cbn [set_value set_historyIndex historyIndex history currentPath].
    repeat split; lia.
  - destruct (Z.ltb_spec 0 (historyIndex t)).
    + cbn [set_value set_historyIndex historyIndex history currentPath].
      repeat split; lia.
    + tauto.
Qed.

Lemma handleKeyDown_down :
  forall t : Terminal,
    cursor_ok t ->
    cursor_ok (handleKeyDown "ArrowDown" t) /\
    history (handleKeyDown "ArrowDown" t) = history t /\
    currentPath (handleKeyDown "ArrowDown" t) = currentPath t.
Proof.
  intros t H. unfold cursor_ok in *.
  rewrite handleKeyDown_ArrowDown.
  destruct (Z.leb_spec 0 (historyIndex t)); [|tauto].
  cbv zeta. cbn [set_historyIndex historyIndex history].
  destruct (Z.leb_spec (Z.of_nat (List.length (history t)))
              (historyIndex t + 1)).
  - unfold andThen.
    cbn [set_value set_historyIndex historyIndex history currentPath].
    repeat split. lia.
  - cbn [set_value set_historyIndex historyIndex history currentPath].
    repeat split. lia.
Qed.

(** Every event keeps the cursor on the sentinel or on an entry, and the
    current path at the root. *)
Lemma handle_invariant :
  forall (e : Event) (t : Terminal),
    cursor_ok t /\ currentPath t = "/" ->
    cursor_ok (handle e t) /\ currentPath (handle e t) = "/".
Proof.
  intros [key|v] t [Hc Hp]; [|split; assumption].
  cbn [handle]. unfold handleKeyDown.
  destruct (key =? "Enter").
  { unfold andThen. split.
    - left. reflexivity.
    - cbn [set_historyIndex set_value currentPath].
      apply executeCommand_currentPath. exact Hp. }
  destruct (key =? "ArrowUp") eqn:Eup.
  { destruct (handleKeyDown_up t Hc) as (H1 & _ & H3).
    split; [exact H1|]. rewrite <- Hp. exact H3. }
  destruct (key =? "ArrowDown") eqn:Edown.
  { destruct (handleKeyDown_down t Hc) as (H1 & _ & H3).
    split; [exact H1|]. rewrite <- Hp. exact H3. }
  destruct (key =? "Tab").
  { destruct (handleTabCompletion_frame t) as (Hh & Hi & Hq & _).
    unfold cursor_ok. rewrite Hh, Hi, Hq. split; assumption. }
  split; assumption.
Qed.

Lemma reachable_run :
  forall (es : list Event) (t : Terminal),
    reachable t -> reachable (run es t).
Proof.
  induction es as [|e es IH]; intros t H; [exact H|].
  apply (IH (handle e t)). apply reachable_step. exact H.
Qed.

Lemma reachable_invariant :
  forall t : Terminal,
    reachable t -> cursor_ok t /\ currentPath t = "/".
Proof.
  induction 1 as [|t e _ IH].
  - split; [left|]; reflexivity.
  - apply handle_invariant. exact IH.
Qed.

(** C3. In every state reached through key and editing events the cursor is
    the sentinel or lies in [0, length]; and in any state where it equals
    the length, the next Down puts it back on the sentinel. *)
Theorem historyIndex_invariant :
  (forall t : Terminal,
      reachable t ->
      historyIndex t = -1 \/
      0 <= historyIndex t <= Z.of_nat (List.length (history t))) /\
  (forall t : Terminal,
      historyIndex t = Z.of_nat (List.length (history t)) ->
      historyIndex (handleKeyDown "ArrowDown" t) = -1).
Proof.
  split.
  - intros t H. destruct (reachable_invariant t H) as [[Hc|Hc] _].
    + left. exact Hc.
    + right. lia.
  - intros t H.
    rewrite handleKeyDown_ArrowDown.
    destruct (Z.leb_spec 0 (historyIndex t)); [|lia].
    cbv zeta. cbn [set_historyIndex historyIndex history].
    destruct (Z.leb_spec (Z.of_nat (List.length (history t)))
                (historyIndex t + 1)); [reflexivity|lia].
Qed.

(** C10. In every state of a session the current path is the root, so that
    [pwd] emits the line [/] after its echo. *)
Theorem currentPath_is_root :
  forall t : Terminal,
    reachable t ->
    currentPath t = "/" /\
    appended (executeCommand "pwd" t)
    = (appended t ++ [echo "pwd"; mkLine "/" "terminal-line "])%list /\
    output (executeCommand "pwd" t)
    = (output t ++ [echo "pwd"; mkLine "/" "terminal-line "])%list.
Proof.
  intros t H. destruct (reachable_invariant t H) as [_ Hp].
  split; [exact Hp|].
  destruct t as [h i p v o a tm]. cbn [currentPath] in Hp. subst p.
  run_command.
Qed.

(** ** [cd] *)

(** C5. For every key [k] of the route table, committing [cd k] emits
    [Navigating to k...] right after the echo and schedules one timer, of
    300 milliseconds, whose callback navigates to the path of [k]. *)
Theorem cd_known_page :
  forall (k path : string) (t : Terminal),
    In (k, path) pages ->
    appended (run (commit ("cd " ++ k)) t)
    = (appended t
       ++ [echo ("cd " ++ k);
           mkLine ("Navigating to " ++ k ++ "...") "terminal-line "])%list /\
    output (run (commit ("cd " ++ k)) t)
    = (output t
       ++ [echo ("cd " ++ k);
           mkLine ("Navigating to " ++ k ++ "...") "terminal-line "])%list /\
    timers (run (commit ("cd " ++ k)) t)
    = (timers t ++ [mkTimer k 300])%list /\
    fire (mkTimer k 300) = Js.Str path.
Proof.
  intros k path [h i p v o a tm] H.
  unfold pages in H. cbn [In] in H.
  repeat (destruct H as [H|H];
          [injection H as <- <-; run_command|]).
  contradiction.
Qed.

(** C6, at the command [cd constructor]. The word [constructor] is not a
    key of the route table, but the property read [this.pages[target]]
    finds the function every object inherits under this name: the terminal
    emits [Navigating to constructor...] and schedules a navigation to this
    function, where an unknown page should have been reported. *)
Theorem cd_constructor_navigates :
  ~ In "constructor" (Js.keys pages) /\
  toLowerCase "constructor" = "constructor" /\
  appended (run (commit "cd constructor") init)
  = (appended init
     ++ [echo "cd constructor";
         mkLine "Navigating to constructor..." "terminal-line "])%list /\
  timers (run (commit "cd constructor") init)
  = [mkTimer "constructor" 300] /\
  fire (mkTimer "constructor" 300) = Js.Builtin "constructor".
Proof.
  split.
  - cbn. intros H.
    repeat (destruct H as [H|H]; [discriminate H|]). exact H.
  - repeat split.
Qed.

Lemma split_space_word :
  forall s : string, word s = true -> Js.split_space s = [s].
Proof.
  induction s as [|c r IH]; simpl; [reflexivity|].
  intros H. apply andb_true_iff in H as [Hc Hr].
  apply negb_true_iff in Hc. rewrite Hc, (IH Hr). reflexivity.
Qed.

Lemma own_None :
  forall (o : list (string * string)) (k : string),
    ~ In k (Js.keys o) -> Js.own o k = None.
Proof.
  induction o as [|[k' v] o IH]; simpl; intros k H; [reflexivity|].
  destruct (k' =? k) eqn:E.
  - apply String.eqb_eq in E. tauto.
  - apply IH. tauto.
Qed.

(** The unknown pages that [cd] does report: the words that are neither a
    key of the route table nor, once in lower case, the name of a property
    of [Object.prototype]. Two lines follow the echo and no timer is
    scheduled. *)
Lemma cd_unknown_page :
  forall (xyz : string) (t : Terminal),
    word xyz = true ->
    ~ In (toLowerCase xyz) (Js.keys pages) ->
    Js.mem (toLowerCase xyz) Js.Object_prototype = false ->
    appended (executeCommand ("cd " ++ xyz) t)
    = (appended t
       ++ [echo ("cd " ++ xyz);
           mkLine ("cd: no such page: " ++ toLowerCase xyz)
                  "terminal-line ";
           mkLine ("Available pages: " ++ Js.join ", " listed)
                  "terminal-line "])%list /\
    timers (executeCommand ("cd " ++ xyz) t) = timers t.
Proof.
  intros xyz t Hw Hk Hp.
  rewrite executeCommand_nonempty by discriminate.
  assert (Es : Js.split_space ("cd " ++ xyz) = ["cd"; xyz]).
  { cbn. rewrite (split_space_word xyz Hw). reflexivity. }
  unfold commandName, commandArgs. rewrite Es. cbn [hd tl].
  change (dispatch (toLowerCase "cd") [xyz]) with (handleCd [xyz]).
  unfold handleCd, Js.get. rewrite (own_None pages _ Hk), Hp.
  cbn [Js.truthy]. run_handlers. rewrite <- !app_assoc. split; reflexivity.
Qed.

(** ** The route table *)

Lemma nodup_keys : NoDup (Js.keys pages).
Proof.
  cbn. repeat (constructor; [cbn; intuition discriminate|]). constructor.
Qed.

(** C7, as the spec states it, fails on the count of destinations: the
    twelve aliases lead to eleven distinct paths, not ten. *)
Lemma destinations_not_10 : List.length destinations <> 10%nat.
Proof. vm_compute. discriminate. Qed.

(** C7, amended. The route table has 12 aliases, all distinct, for 11
    distinct destinations; [home] and [index] are the aliases of the root
    path and every other path has one alias; the listing that [ls], [help]
    and the error message of [cd] print holds every key but these two. *)
Theorem route_table_shape :
  List.length pages = 12%nat /\
  NoDup (Js.keys pages) /\
  List.length destinations = 11%nat /\
  aliases "/" = ["home"; "index"] /\
  (forall path : string,
      In path destinations -> path <> "/" ->
      List.length (aliases path) = 1%nat) /\
  (forall k : string,
      In k listed <->
      In k (Js.keys pages) /\ k <> "home" /\ k <> "index") /\
  (forall t : Terminal,
      appended (handleLs t)
      = (appended t
         ++ [mkLine (Js.join "  " listed) "terminal-line "])%list) /\
  (forall t : Terminal,
      exists before : list Line,
        appended (handleHelp t)
        = ((appended t ++ before)
           ++ [mkLine ("  " ++ Js.join ", " listed) "terminal-line "])%list) /\
  (forall (a : string) (t : Terminal),
      Js.truthy (Js.get pages (toLowerCase a)) = false ->
      appended (handleCd [a] t)
      = (appended t
         ++ [mkLine ("cd: no such page: " ++ toLowerCase a)
                    "terminal-line ";
             mkLine ("Available pages: " ++ Js.join ", " listed)
                    "terminal-line "])%list).
Proof.
  split; [reflexivity|].
  split; [apply nodup_keys|].
  split; [reflexivity|].
  split; [reflexivity|].
  split.
  { intros path H Hr. vm_compute in H.
    repeat (destruct H as [H|H]; [subst path; try reflexivity; tauto|]).
    contradiction. }
  split.
  { intros k. unfold listed. rewrite filter_In. unfold not_home.
    rewrite andb_true_iff, !negb_true_iff, !String.eqb_neq. reflexivity. }
  split.
  { intros t. run_handlers. reflexivity. }
  split.
  { intros t. eexists. run_handlers. f_equal.
    rewrite <- !app_assoc. reflexivity. }
  intros a t H. unfold handleCd. rewrite H. run_handlers.
  rewrite <- !app_assoc. reflexivity.
Qed.

(** ** Tab completion *)

Lemma startsWith_spec :
  forall s p : string,
    Js.startsWith s p = true <-> exists rest : string, s = p ++ rest.
Proof.
  intros s p. revert s.
  induction p as [|a p IH]; intros s.
  - destruct s; simpl; split; eauto.
  - destruct s as [|b s]; simpl.
    + split; [discriminate|]. intros [rest H]. discriminate H.
    + rewrite andb_true_iff, Ascii.eqb_eq, IH. split.
      * intros [-> [rest ->]]. exists rest. reflexivity.
      * intros [rest H]. injection H as -> ->. eauto.
Qed.

(** C4. With [command] and [arg] the first two words of the trimmed input
    and [M] the keys of the route table that start with [arg] in lower
    case: Tab changes nothing unless [command] is [cd] and [arg] is there;
    then, a single match [m] rewrites the field to [cd m], no match changes
    nothing, and several matches emit one line, the matches joined by two
    spaces, and leave the field as it is. *)
Theorem tab_completion :
  forall (t : Terminal) (command arg : string) (M : list string),
    command = hd "" (Js.split_space (Js.trim (value t))) ->
    arg = nth 1 (Js.split_space (Js.trim (value t))) "" ->
    M = completions arg ->
    (forall k : string,
        In k M <->
        In k (Js.keys pages) /\
        exists rest : string, k = toLowerCase arg ++ rest) /\
    (~ (command = "cd" /\ arg <> "") -> handleKeyDown "Tab" t = t) /\
    (command = "cd" -> arg <> "" ->
     (forall m : string,
         M = [m] -> handleKeyDown "Tab" t = set_value ("cd " ++ m) t) /\
     (List.length M = 1%nat -> exists m : string, M = [m]) /\
     (List.length M = 0%nat -> handleKeyDown "Tab" t = t) /\
     ((1 < List.length M)%nat ->
      handleKeyDown "Tab" t = addOutput (Js.join "  " M) "" t /\
      value (handleKeyDown "Tab" t) = value t /\
      output (handleKeyDown "Tab" t)
      = (output t ++ [mkLine (Js.join "  " M) "terminal-line "])%list /\
      appended (handleKeyDown "Tab" t)
      = (appended t ++ [mkLine (Js.join "  " M) "terminal-line "])%list)).
Proof.
  intros t command arg M Hc Ha HM.
  assert (E : handleKeyDown "Tab" t
              = if (command =? "cd") && negb (arg =? "") then
                  if (List.length M =? 1)%nat then
                    set_value ("cd " ++ Js.DOMString (nth_error M 0)) t
                  else if (1 <? List.length M)%nat then
                    (addOutput (Js.join "  " M) "" >> addPrompt) t
                  else t
                else t).
  { subst command arg M. reflexivity. }
  rewrite E. clear E. split; [|split].
  - intros k. subst M. unfold completions.
    rewrite filter_In, startsWith_spec. reflexivity.
  - intros H. destruct (String.eqb_spec command "cd") as [Hcd|Hcd];
      [|reflexivity].
    destruct (String.eqb_spec arg "") as [Harg|Harg]; [reflexivity|].
    tauto.
  - intros Hcd Harg.
    apply String.eqb_eq in Hcd. apply String.eqb_neq in Harg.
    rewrite Hcd, Harg. cbn [andb negb].
    repeat split.
    + intros m ->. reflexivity.
    + intros H. destruct M as [|m [|m' M']]; try discriminate H.
      exists m. reflexivity.
    + intros H. destruct M; [reflexivity|discriminate H].
    + destruct M as [|m [|m' M']]; cbn in H; try lia. reflexivity.
    + destruct M as [|m [|m' M']]; cbn in H; try lia. reflexivity.
    + destruct M as [|m [|m' M']]; cbn in H; try lia. reflexivity.
    + destruct M as [|m [|m' M']]; cbn in H; try lia. reflexivity.
Qed.

(** ** Recalling commands with Up *)

Lemma press_S :
  forall (n : nat) (key : string) (t : Terminal),
    press (S n) key t = press n key (handleKeyDown key t).
Proof. reflexivity. Qed.

(** One Up from a cursor that is on an entry, or one past the newest. *)
Lemma up_step :
  forall t : Terminal,
    0 < historyIndex t <= Z.of_nat (List.length (history t)) ->
    handleKeyDown "ArrowUp" t
    = set_value (Js.DOMString (history_at t (historyIndex t - 1)))
        (set_historyIndex (historyIndex t - 1) t).
Proof.
  intros t H.
  rewrite handleKeyDown_ArrowUp.
  destruct (Nat.ltb_spec 0 (List.length (history t))); [|lia].
  destruct (Z.eqb_spec (historyIndex t) (-1)); [lia|].
  cbv zeta. destruct (Z.ltb_spec 0 (historyIndex t)); [|lia].
  reflexivity.
Qed.

(** The first Up of a recall starts one past the newest entry. *)
Lemma up_sentinel :
  forall t : Terminal,
    historyIndex t = -1 ->
    (0 < List.length (history t))%nat ->
    handleKeyDown "ArrowUp" t
    = handleKeyDown "ArrowUp"
        (set_historyIndex (Z.of_nat (List.length (history t))) t).
Proof.
  intros t Hs Hl.
  rewrite handleKeyDown_ArrowUp.
  rewrite up_step by (cbn [set_historyIndex historyIndex history]; lia).
  destruct (Nat.ltb_spec 0 (List.length (history t))); [|lia].
  destruct (Z.eqb_spec (historyIndex t) (-1)); [|contradiction].
  cbv zeta. cbn [set_historyIndex historyIndex history].
  destruct (Z.ltb_spec 0 (Z.of_nat (List.length (history t)))); [|lia].
  reflexivity.
Qed.

Lemma press_up_from :
  forall (k : nat) (t : Terminal),
    (0 < k)%nat ->
    Z.of_nat k <= historyIndex t <= Z.of_nat (List.length (history t)) ->
    historyIndex (press k "ArrowUp" t) = historyIndex t - Z.of_nat k /\
    history (press k "ArrowUp" t) = history t /\
    value (press k "ArrowUp" t)
    = Js.DOMString (history_at t (historyIndex t - Z.of_nat k)).
Proof.
  induction k as [|k IH]; intros t Hk H; [lia|].
  rewrite press_S, up_step by lia.
  destruct k as [|k].
  - cbn [press set_value set_historyIndex historyIndex history value].
    repeat split.
  - destruct (IH (set_value
                    (Js.DOMString (history_at t (historyIndex t - 1)))
                    (set_historyIndex (historyIndex t - 1) t)))
      as (Hi & Hh & Hv).
    + lia.
    + cbn [set_value set_historyIndex historyIndex history]. lia.
    + rewrite Hi, Hh, Hv.
      cbn [set_value set_historyIndex historyIndex history].
      unfold history_at. cbn [history].
      replace (historyIndex t - 1 - Z.of_nat (S k))
        with (historyIndex t - Z.of_nat (S (S k))) by lia.
      repeat split.
Qed.

(** From the sentinel, the entry of index [i] comes back after as many Ups
    as there are entries from it to the newest. *)
Lemma press_up_recalls :
  forall (t : Terminal) (i : nat) (c : string),
    historyIndex t = -1 ->
    nth_error (history t) i = Some c ->
    value (press (List.length (history t) - i) "ArrowUp" t) = c /\
    historyIndex (press (List.length (history t) - i) "ArrowUp" t)
    = Z.of_nat i.
Proof.
  intros t i c Hs Hc.
  assert (Hi : (i < List.length (history t))%nat)
    by (apply nth_error_Some; congruence).
  destruct (List.length (history t) - i)%nat as [|k] eqn:Ek; [lia|].
  rewrite press_S, up_sentinel by (assumption || lia).
  rewrite <- press_S.
  destruct (press_up_from (S k)
              (set_historyIndex (Z.of_nat (List.length (history t))) t))
    as (Hi' & _ & Hv).
  - lia.
  - cbn [set_historyIndex historyIndex history]. lia.
  - rewrite Hi', Hv. cbn [set_historyIndex historyIndex history].
    replace (Z.of_nat (List.length (history t)) - Z.of_nat (S k))
      with (Z.of_nat i) by lia.
    split; [|reflexivity].
    unfold history_at. cbn [set_historyIndex history].
    destruct (Z.ltb_spec (Z.of_nat i) 0); [lia|].
    rewrite Nat2Z.id, Hc. reflexivity.
Qed.

(** ** [clear] *)

(** C8, amended. [handleClear] empties the output log and touches nothing
    else. Executing [clear] empties the output log, its echo included, and
    adds the entry [clear] after the entries of the history, which stay in
    place; [executeCommand] leaves the cursor and the input field alone,
    and the Enter key then resets both, as for every command. After
    [clear], the first Up shows [clear] and further Ups show the commands
    executed before it: the entry of index [i] after [length - i] further
    Ups. *)
Theorem clear_frame :
  forall t : Terminal,
    handleClear t
    = mkTerminal (history t) (historyIndex t) (currentPath t) (value t) []
        (appended t) (timers t) /\
    executeCommand "clear" t
    = mkTerminal (history t ++ ["clear"])%list (historyIndex t)
        (currentPath t) (value t) []
        (appended t ++ [echo "clear"])%list (timers t) /\
    run (commit "clear") t
    = mkTerminal (history t ++ ["clear"])%list (-1) (currentPath t) "" []
        (appended t ++ [echo "clear"])%list (timers t) /\
    value (press 1 "ArrowUp" (run (commit "clear") t)) = "clear" /\
    (forall (i : nat) (c : string),
        nth_error (history t) i = Some c ->
        value (press (S (List.length (history t) - i)) "ArrowUp"
                 (run (commit "clear") t)) = c).
Proof.
  intros t.
  assert (Hr : run (commit "clear") t
               = mkTerminal (history t ++ ["clear"])%list (-1)
                   (currentPath t) "" []
                   (appended t ++ [echo "clear"])%list (timers t))
    by reflexivity.
  split; [reflexivity|]. split; [reflexivity|]. split; [exact Hr|].
  rewrite Hr.
  set (t' := mkTerminal (history t ++ ["clear"])%list (-1) (currentPath t)
               "" [] (appended t ++ [echo "clear"])%list (timers t)).
  assert (Hl : List.length (history t')
               = S (List.length (history t))).
  { cbn [t' history]. rewrite length_app. cbn [List.length]. lia. }
  split.
  - destruct (press_up_recalls t' (List.length (history t)) "clear")
      as [Hv _].
    + reflexivity.
    + cbn [t' history]. rewrite nth_error_app2 by lia.
      rewrite Nat.sub_diag. reflexivity.
    + rewrite Hl in Hv.
      replace (S (List.length (history t)) - List.length (history t))%nat
        with 1%nat in Hv by lia.
      exact Hv.
  - intros i c Hc.
    assert (Hi : (i < List.length (history t))%nat)
      by (apply nth_error_Some; congruence).
    destruct (press_up_recalls t' i c) as [Hv _].
    + reflexivity.
    + cbn [t' history]. rewrite nth_error_app1 by lia. exact Hc.
    + rewrite Hl in Hv.
      replace (S (List.length (history t)) - i)%nat
        with (S (List.length (history t) - i)) in Hv by lia.
      exact Hv.
Qed.

(** * Further properties of the class *)

(** ** The branches of [executeCommand] *)

Lemma commandName_nonempty :
  forall c : string, commandName c <> "" -> c <> "".
Proof. intros c H ->. apply H. reflexivity. Qed.

(** X1. A command whose name, in lower case, is none of [cd], [ls], [help],
    [clear], [pwd] and [cat] is recorded and echoed like the others, then
    reported on one line that quotes its name in lower case; nothing else
    changes: no navigation is scheduled, the path, the cursor and the input
    field stay as they are. *)
Theorem unknown_command_reported :
  forall (c : string) (t : Terminal),
    c <> "" ->
    ~ In (commandName c) commands ->
    executeCommand c t
    = mkTerminal (history t ++ [c])%list (historyIndex t) (currentPath t)
        (value t)
        (output t
         ++ [echo c;
             mkLine ("Command not found: " ++ commandName c ++ ". Type "
                     ++ dquote ++ "help" ++ dquote
                     ++ " for available commands.") "terminal-line "])%list
        (appended t
         ++ [echo c;
             mkLine ("Command not found: " ++ commandName c ++ ". Type "
                     ++ dquote ++ "help" ++ dquote
                     ++ " for available commands.") "terminal-line "])%list
        (timers t).
Proof.
  intros c t Hc Hn. rewrite (executeCommand_nonempty c t Hc).
  unfold dispatch, commands in *. cbn [In] in Hn.
  repeat match goal with
         | |- context [if ?x =? ?s then _ else _] =>
             destruct (String.eqb_spec x s) as [E|_];
             [exfalso; apply Hn; rewrite E; tauto|]
         end.
  run_handlers. rewrite <- !app_assoc. reflexivity.
Qed.

(** X2. [cat] reads no file. Without an operand it emits the two lines of
    the missing operand; with operands it reports the first one, as typed,
    as not found and ignores the others. In both cases the command is
    recorded and echoed, and no navigation is scheduled. *)
Theorem cat_never_finds :
  forall (c : string) (t : Terminal),
    commandName c = "cat" ->
    history (executeCommand c t) = (history t ++ [c])%list /\
    timers (executeCommand c t) = timers t /\
    (commandArgs c = [] ->
     appended (executeCommand c t)
     = (appended t
        ++ [echo c;
            mkLine "cat: missing file operand" "terminal-line ";
            mkLine "Try: cat <filename>" "terminal-line "])%list) /\
    (forall (f : string) (others : list string),
        commandArgs c = f :: others ->
        appended (executeCommand c t)
        = (appended t
           ++ [echo c;
               mkLine ("cat: " ++ f ++ ": No such file or directory")
                      "terminal-line "])%list).
Proof.
  intros c t Hn.
  assert (Hc : c <> "") by (apply commandName_nonempty; rewrite Hn;
      discriminate).
  rewrite (executeCommand_nonempty c t Hc), Hn.
  change (dispatch "cat") with handleCat.
  destruct (commandArgs c) as [|f others].
  - run_handlers. repeat split.
    + intros _. rewrite <- !app_assoc. reflexivity.
    + intros f others H. discriminate H.
  - run_handlers. repeat split.
    + intros H. discriminate H.
    + intros f' others' H. injection H as <- <-.
      rewrite <- !app_assoc. reflexivity.
Qed.

(** X3. [cd] without an argument, in any letter case, sets the current path
    to the root whatever it was, emits the line [~] after the echo and
    schedules no navigation. *)
Theorem cd_without_argument :
  forall (c : string) (t : Terminal),
    commandName c = "cd" ->
    commandArgs c = [] ->
    currentPath (executeCommand c t) = "/" /\
    appended (executeCommand c t)
    = (appended t ++ [echo c; mkLine "~" "terminal-line "])%list /\
    output (executeCommand c t)
    = (output t ++ [echo c; mkLine "~" "terminal-line "])%list /\
    timers (executeCommand c t) = timers t.
Proof.
  intros c t Hn Ha.
  assert (Hc : c <> "") by (apply commandName_nonempty; rewrite Hn;
      discriminate).
  rewrite (executeCommand_nonempty c t Hc), Hn, Ha.
  change (dispatch "cd" []) with (handleCd []).
  run_handlers. rewrite <- !app_assoc. repeat split.
Qed.

(** X4. [cd] looks at its first argument only, and in lower case: further
    arguments and the letter case of the first one make no difference. *)
Theorem cd_first_argument_lower_case :
  forall (a : string) (others : list string) (t : Terminal),
    handleCd (a :: others) t = handleCd [toLowerCase a] t.
Proof.
  intros a others t. unfold handleCd.
  rewrite toLowerCase_idempotent. reflexivity.
Qed.

(** X5. Only [cd] navigates: a command with another name schedules no timer
    and leaves the current path as it is. *)
Theorem only_cd_navigates :
  forall (c : string) (t : Terminal),
    commandName c <> "cd" ->
    timers (executeCommand c t) = timers t /\
    currentPath (executeCommand c t) = currentPath t.
Proof.
  intros c t Hn. unfold executeCommand.
  destruct (c =? ""); [split; reflexivity|].
  unfold andThen, dispatch, handleCat.
  destruct (String.eqb_spec (commandName c) "cd") as [E|_]; [contradiction|].
  repeat match goal with
         | |- context [if ?x =? ?s then _ else _] => destruct (x =? s)
         end;
    try destruct (commandArgs c);
    run_handlers; split; reflexivity.
Qed.

(** X6. Two spaces after [cd] make an empty first argument: the command
    reports the unknown page of empty name, with the listing, and schedules
    no navigation, whatever follows, the name of a page included. *)
Theorem cd_two_spaces :
  forall (rest : string) (t : Terminal),
    Js.trim ("cd  " ++ rest) = "cd  " ++ rest ->
    appended (run (commit ("cd  " ++ rest)) t)
    = (appended t
       ++ [echo ("cd  " ++ rest);
           mkLine "cd: no such page: " "terminal-line ";
           mkLine ("Available pages: " ++ Js.join ", " listed)
                  "terminal-line "])%list /\
    timers (run (commit ("cd  " ++ rest)) t) = timers t.
Proof.
  intros rest t H.
  assert (E : run (commit ("cd  " ++ rest)) t
              = set_historyIndex (-1)
                  (set_value ""
                     (executeCommand (Js.trim ("cd  " ++ rest))
                        (set_value ("cd  " ++ rest) t))))
    by reflexivity.
  rewrite E, H, executeCommand_nonempty by discriminate.
  change (commandName ("cd  " ++ rest)) with "cd".
  change (commandArgs ("cd  " ++ rest)) with ("" :: Js.split_space rest).
  change (dispatch "cd" ("" :: Js.split_space rest)) with
    (handleCd ("" :: Js.split_space rest)).
  change (handleCd ("" :: Js.split_space rest)) with
    (addOutput "cd: no such page: " ""
     >> addOutput ("Available pages: " ++ Js.join ", " listed) ""
     >> addPrompt).
  run_handlers. rewrite <- !app_assoc. split; reflexivity.
Qed.

(** ** More on Tab *)

Lemma handleTabCompletion_eq :
  forall t : Terminal,
    handleTabCompletion t
    = if (hd "" (Js.split_space (Js.trim (value t))) =? "cd")
         && negb (nth 1 (Js.split_space (Js.trim (value t))) "" =? "")
      then
        if (List.length
              (completions (nth 1 (Js.split_space (Js.trim (value t))) ""))
            =? 1)%nat
        then
          set_value
            ("cd "
             ++ Js.DOMString
                  (nth_error
                     (completions
                        (nth 1 (Js.split_space (Js.trim (value t))) "")) 0))
            t
        else if (1 <? List.length
                        (completions
                           (nth 1 (Js.split_space (Js.trim (value t))) "")))%nat
        then
          addOutput
            (Js.join "  "
               (completions (nth 1 (Js.split_space (Js.trim (value t))) "")))
            "" t
        else t
      else t.
Proof. reflexivity. Qed.

Lemma completions_keys :
  forall arg m : string, In m (completions arg) -> In m (Js.keys pages).
Proof.
  intros arg m H. unfold completions in H.
  apply filter_In in H. tauto.
Qed.

Lemma single_length :
  forall (A : Type) (l : list A),
    (List.length l =? 1)%nat = true -> exists x : A, l = [x].
Proof.
  intros A [|x [|y l]] H; try discriminate H. eauto.
Qed.

(** The text Tab leaves in the field: the one it found, or the command of
    a key. *)
Lemma tab_value_cases :
  forall t : Terminal,
    value (handleTabCompletion t) = value t \/
    exists m : string,
      In m (Js.keys pages) /\ value (handleTabCompletion t) = "cd " ++ m.
Proof.
  intros t. rewrite handleTabCompletion_eq.
  destruct (_ && _); [|left; reflexivity].
  destruct (_ =? 1)%nat eqn:E1.
  - apply single_length in E1 as [m E1]. right. exists m. split.
    + apply (completions_keys
               (nth 1 (Js.split_space (Js.trim (value t))) "")).
      rewrite E1. left. reflexivity.
    + rewrite E1. reflexivity.
  - left. destruct (1 <? _)%nat; reflexivity.
Qed.

(** Tab reads the input field only. *)
Lemma tab_value_ext :
  forall t1 t2 : Terminal,
    value t1 = value t2 ->
    value (handleTabCompletion t1) = value (handleTabCompletion t2).
Proof.
  intros t1 t2 H. rewrite !handleTabCompletion_eq, H.
  destruct (_ && _); [|exact H].
  destruct (_ =? 1)%nat; [reflexivity|].
  destruct (1 <? _)%nat; exact H.
Qed.

(** No key of the route table starts with another one: the command of a
    key is completed into itself. *)
Lemma tab_on_key :
  forall m : string,
    In m (Js.keys pages) ->
    value (handleTabCompletion (set_value ("cd " ++ m) fresh)) = "cd " ++ m.
Proof.
  intros m H. cbn in H.
  repeat (destruct H as [H|H]; [subst m; reflexivity|]).
  contradiction.
Qed.

(** X7. A second Tab never changes the text the first one left in the
    input field: a completed name is completed into itself, and a text that
    Tab did not rewrite is not rewritten by the next Tab either. *)
Theorem tab_twice :
  forall t : Terminal,
    value (handleKeyDown "Tab" (handleKeyDown "Tab" t))
    = value (handleKeyDown "Tab" t).
Proof.
  intros t.
  change (value (handleTabCompletion (handleTabCompletion t))
          = value (handleTabCompletion t)).
  destruct (tab_value_cases t) as [H|(m & Hm & H)].
  - rewrite (tab_value_ext _ t H). reflexivity.
  - rewrite (tab_value_ext (handleTabCompletion t)
               (set_value ("cd " ++ m) fresh) H).
    rewrite H. apply tab_on_key. exact Hm.
Qed.

Lemma tab_effect :
  forall t : Terminal,
    exists rest : list Line,
      (List.length rest <= 1)%nat /\
      Forall plain rest /\
      output (handleTabCompletion t) = (output t ++ rest)%list /\
      appended (handleTabCompletion t) = (appended t ++ rest)%list /\
      history (handleTabCompletion t) = history t /\
      historyIndex (handleTabCompletion t) = historyIndex t /\
      currentPath (handleTabCompletion t) = currentPath t /\
      timers (handleTabCompletion t) = timers t.
Proof.
  intros t. rewrite handleTabCompletion_eq.
  destruct (_ && _);
    [destruct (_ =? 1)%nat; [|destruct (1 <? _)%nat]|].
  2: { eexists [_]. run_handlers. repeat split; try (cbn; lia).
       repeat constructor. }
  all: exists []; run_handlers; rewrite !app_nil_r;
    repeat split; try (cbn; lia); constructor.
Qed.

(** X8. Tab removes nothing and records nothing: it appends at most one
    line, a plain one, to the output log, and leaves the history, its
    cursor, the current path and the timers as they are. *)
Theorem tab_adds_at_most_one_line :
  forall t : Terminal,
    exists rest : list Line,
      (List.length rest <= 1)%nat /\
      Forall plain rest /\
      output (handleKeyDown "Tab" t) = (output t ++ rest)%list /\
      appended (handleKeyDown "Tab" t) = (appended t ++ rest)%list /\
      history (handleKeyDown "Tab" t) = history t /\
      historyIndex (handleKeyDown "Tab" t) = historyIndex t /\
      currentPath (handleKeyDown "Tab" t) = currentPath t /\
      timers (handleKeyDown "Tab" t) = timers t.
Proof.
  intros t. exact (tab_effect t).
Qed.

(** The commit of the command of a key, on any terminal. *)
Lemma commit_cd_key :
  forall (m : string) (t : Terminal),
    In m (Js.keys pages) ->
    exists path : string,
      In (m, path) pages /\
      fire (mkTimer m 300) = Js.Str path /\
      timers (handleKeyDown "Enter" (set_value ("cd " ++ m) t))
      = (timers t ++ [mkTimer m 300])%list /\
      history (handleKeyDown "Enter" (set_value ("cd " ++ m) t))
      = (history t ++ [("cd " ++ m)%string])%list.
Proof.
  intros m [h i p v o a tm] H. cbn in H.
  repeat (destruct H as [H|H];
          [subst m; eexists; split; [cbn; eauto 13|run_command]|]).
  contradiction.
Qed.

(** X9. When Tab finds a single completion [m], pressing Enter next
    navigates: the command [cd m] is recorded and one timer of 300
    milliseconds is scheduled, whose callback goes to the path of [m] in
    the route table. *)
Theorem tab_then_enter_navigates :
  forall (t : Terminal) (m : string),
    hd "" (Js.split_space (Js.trim (value t))) = "cd" ->
    completions (nth 1 (Js.split_space (Js.trim (value t))) "") = [m] ->
    nth 1 (Js.split_space (Js.trim (value t))) "" <> "" ->
    exists path : string,
      In (m, path) pages /\
      fire (mkTimer m 300) = Js.Str path /\
      timers (run [KeyDown "Tab"; KeyDown "Enter"] t)
      = (timers t ++ [mkTimer m 300])%list /\
      history (run [KeyDown "Tab"; KeyDown "Enter"] t)
      = (history t ++ [("cd " ++ m)%string])%list.
Proof.
  intros t m Hc HM Ha.
  assert (E : run [KeyDown "Tab"; KeyDown "Enter"] t
              = handleKeyDown "Enter" (handleTabCompletion t))
    by reflexivity.
  rewrite E, handleTabCompletion_eq, Hc, HM.
  apply String.eqb_neq in Ha. rewrite Ha.
  cbn [String.eqb Ascii.eqb Bool.eqb andb negb List.length Nat.eqb
       nth_error Js.DOMString].
  apply commit_cd_key.
  apply (completions_keys (nth 1 (Js.split_space (Js.trim (value t))) "")).
  rewrite HM. left. reflexivity.
Qed.

(** ** What a session keeps *)

Lemma dispatch_timers :
  forall (cmd : string) (args : list string) (t : Terminal),
    timers (dispatch cmd args t) = timers t \/
    exists tm : Timer,
      cd_timer tm /\ timers (dispatch cmd args t) = (timers t ++ [tm])%list.
Proof.
  intros cmd args t. unfold dispatch, handleCd, handleCat.
  repeat match goal with
         | |- context [if ?c =? ?s then _ else _] => destruct (c =? s)
         end;
    try destruct args as [|a args];
    try destruct (Js.truthy (Js.get pages (toLowerCase a))) eqn:E;
    run_handlers; try (left; reflexivity).
  right. exists (mkTimer (toLowerCase a) 300).
  split; [split; [reflexivity|exact E]|reflexivity].
Qed.

(** The whole effect of a command that is not empty. *)
Lemma executeCommand_effect :
  forall (c : string) (t : Terminal),
    c <> "" ->
    exists rest : list Line,
      Forall plain rest /\
      history (executeCommand c t) = (history t ++ [c])%list /\
      appended (executeCommand c t) = (appended t ++ echo c :: rest)%list /\
      output (executeCommand c t)
      = (if commandName c =? "clear" then []
         else output t ++ echo c :: rest)%list /\
      historyIndex (executeCommand c t) = historyIndex t /\
      value (executeCommand c t) = value t /\
      (timers (executeCommand c t) = timers t \/
       exists tm : Timer,
         cd_timer tm /\
         timers (executeCommand c t) = (timers t ++ [tm])%list).
Proof.
  intros c t H. rewrite (executeCommand_nonempty c t H).
  set (t1 := addOutput (prompt ++ c) "command"
               (set_history (history t ++ [c])%list t)).
  destruct (dispatch_effect (commandName c) (commandArgs c) t1)
    as (rest & Ha & Hp & Ho & Hh & Hi & Hv).
  exists rest. rewrite Ha, Ho, Hh, Hi, Hv.
  split; [exact Hp|]. split; [reflexivity|].
  split; [cbn [t1 addOutput appended]; rewrite <- app_assoc; reflexivity|].
  split.
  { destruct (commandName c =? "clear"); [reflexivity|].
    cbn [t1 addOutput output set_history]. rewrite <- app_assoc.
    reflexivity. }
  split; [reflexivity|]. split; [reflexivity|].
  exact (dispatch_timers (commandName c) (commandArgs c) t1).
Qed.

(** The arrow keys move the cursor and write the input field, nothing
    else. *)
Lemma arrows_frame :
  forall (key : string) (t : Terminal),
    key = "ArrowUp" \/ key = "ArrowDown" ->
    history (handleKeyDown key t) = history t /\
    currentPath (handleKeyDown key t) = currentPath t /\
    output (handleKeyDown key t) = output t /\
    appended (handleKeyDown key t) = appended t /\
    timers (handleKeyDown key t) = timers t.
Proof.
  intros key t [-> | ->].
  - rewrite handleKeyDown_ArrowUp. cbv zeta.
    repeat match goal with
           | |- context [if ?c then _ else _] => destruct c
           end;
      repeat split.
  - rewrite handleKeyDown_ArrowDown. cbv zeta.
    repeat match goal with
           | |- context [if ?c then _ else _] => destruct c
           end;
      repeat split.
Qed.

Lemma filter_plain :
  forall rest : list Line, Forall plain rest -> filter is_echo rest = [].
Proof.
  induction 1 as [|l rest Hl _ IH]; [reflexivity|].
  change (filter is_echo (l :: rest))
    with (if is_echo l then l :: filter is_echo rest
          else filter is_echo rest).
  unfold is_echo at 1. rewrite Hl, IH. reflexivity.
Qed.

Lemma session_ok_frame :
  forall t t' : Terminal,
    history t' = history t ->
    appended t' = appended t ->
    output t' = output t ->
    timers t' = timers t ->
    session_ok t -> session_ok t'.
Proof.
  unfold session_ok. intros t t' -> -> -> -> H. exact H.
Qed.

Lemma enter_session_ok :
  forall t : Terminal,
    session_ok t -> session_ok (handleKeyDown "Enter" t).
Proof.
  intros t H.
  assert (E : handleKeyDown "Enter" t
              = set_historyIndex (-1)
                  (set_value "" (executeCommand (Js.trim (value t)) t)))
    by reflexivity.
  apply (session_ok_frame (executeCommand (Js.trim (value t)) t));
    try (rewrite E; reflexivity).
  destruct (String.eqb_spec (Js.trim (value t)) "") as [Hc|Hc].
  { rewrite Hc. exact H. }
  destruct (executeCommand_effect _ t Hc)
    as (rest & Hp & Hh & Ha & Ho & _ & _ & Ht).
  destruct H as (H1 & H2 & (before & H3) & H4 & H5).
  unfold session_ok. rewrite Hh, Ha, Ho.
  split; [|split; [|split]].
  - apply Forall_app. split; [exact H1|].
    constructor; [|constructor].
    split; [exact Hc|apply trim_idempotent].
  - rewrite filter_app, map_app, H2.
    change (filter is_echo (echo (Js.trim (value t)) :: rest))
      with (echo (Js.trim (value t)) :: filter is_echo rest).
    rewrite (filter_plain rest Hp). reflexivity.
  - destruct (commandName (Js.trim (value t)) =? "clear").
    + eexists. rewrite app_nil_r. reflexivity.
    + exists before. rewrite H3 at 1. rewrite <- app_assoc. reflexivity.
  - destruct Ht as [Ht|(tm & Hc' & Ht)]; rewrite Ht.
    + split; [exact H4|]. rewrite length_app. cbn [List.length]. lia.
    + split.
      * apply Forall_app. split; [exact H4|]. constructor; [exact Hc'|].
        constructor.
      * rewrite !length_app. cbn [List.length]. lia.
Qed.

Lemma handle_session_ok :
  forall (e : Event) (t : Terminal),
    session_ok t -> session_ok (handle e t).
Proof.
  intros [key|v] t H; [|exact H].
  cbn [handle].
  destruct (String.eqb_spec key "Enter") as [->|HE];
    [apply enter_session_ok; exact H|].
  destruct (String.eqb_spec key "ArrowUp") as [->|HU].
  { destruct (arrows_frame "ArrowUp" t) as (Hh & _ & Ho & Ha & Ht);
      [tauto|].
    exact (session_ok_frame t _ Hh Ha Ho Ht H). }
  destruct (String.eqb_spec key "ArrowDown") as [->|HD].
  { destruct (arrows_frame "ArrowDown" t) as (Hh & _ & Ho & Ha & Ht);
      [tauto|].
    exact (session_ok_frame t _ Hh Ha Ho Ht H). }
  destruct (String.eqb_spec key "Tab") as [->|HT].
  { change (handleKeyDown "Tab" t) with (handleTabCompletion t).
    destruct (tab_effect t) as (rest & _ & Hp & Ho & Ha & Hh & _ & _ & Ht).
    destruct H as (H1 & H2 & (before & H3) & H4 & H5).
    unfold session_ok. rewrite Hh, Ha, Ho, Ht.
    split; [exact H1|]. split.
    - rewrite filter_app, (filter_plain rest Hp), app_nil_r. exact H2.
    - split; [|split; assumption].
      exists before. rewrite H3 at 1. rewrite <- app_assoc. reflexivity. }
  unfold handleKeyDown.
  apply String.eqb_neq in HE, HU, HD, HT. rewrite HE, HU, HD, HT. exact H.
Qed.

Lemma reachable_session_ok :
  forall t : Terminal, reachable t -> session_ok t.
Proof.
  induction 1 as [|t e _ IH].
  - unfold session_ok. cbn.
    split; [constructor|]. split; [reflexivity|].
    split; [exists []; reflexivity|]. split; [constructor|lia].
  - apply handle_session_ok. exact IH.
Qed.

(** X10. In every state of a session, each entry of the history is a text
    that is not empty and that [trim] leaves as it is: it neither starts
    nor ends with white space. *)
Theorem history_entries_trimmed :
  forall (t : Terminal) (c : string),
    reachable t ->
    In c (history t) ->
    c <> "" /\ Js.trim c = c /\ Js.trimStart c = c /\ Js.trimEnd c = c.
Proof.
  intros t c H Hc.
  destruct (reachable_session_ok t H) as (H1 & _).
  rewrite Forall_forall in H1. destruct (H1 c Hc) as [Hne Ht].
  split; [exact Hne|]. split; [exact Ht|].
  exact (trim_fixed c Ht).
Qed.

(** X11. In every state of a session, the echoed lines among all the lines
    ever appended are the echoes of the history entries, one for each, in
    the same order. *)
Theorem echoes_follow_history :
  forall t : Terminal,
    reachable t ->
    filter is_echo (appended t) = map echo (history t).
Proof.
  intros t H. destruct (reachable_session_ok t H) as (_ & H2 & _).
  exact H2.
Qed.

(** X12. In every state of a session, the output log is the end of the
    sequence of lines ever appended: lines leave the log only together
    with all the lines before them, which is what [clear] does. *)
Theorem output_is_latest_lines :
  forall t : Terminal,
    reachable t ->
    exists before : list Line, appended t = (before ++ output t)%list.
Proof.
  intros t H. destruct (reachable_session_ok t H) as (_ & _ & H3 & _).
  exact H3.
Qed.

Lemma truthy_get :
  forall k : string,
    Js.truthy (Js.get pages k) = true ->
    In k (Js.keys pages) \/ In k Js.Object_prototype.
Proof.
  intros k H. unfold Js.get in H.
  destruct (Js.own pages k) eqn:E.
  - left. clear H. revert E. generalize pages.
    induction l as [|[k' v] l IH]; simpl; [discriminate|].
    destruct (String.eqb_spec k' k) as [->|_]; [tauto|].
    intros E. right. exact (IH E).
  - right. destruct (Js.mem k Js.Object_prototype) eqn:Em;
      [|discriminate H].
    unfold Js.mem in Em. apply existsb_exists in Em as (x & Hx & Ex).
    apply String.eqb_eq in Ex. subst x. exact Hx.
Qed.

(** X13. In every state of a session, every timer has a delay of 300
    milliseconds and a target that is a key of the route table or the name
    of a property of [Object.prototype], so that its callback never
    assigns [undefined]; and there are at most as many timers as entries
    in the history. *)
Theorem timers_of_a_session :
  forall t : Terminal,
    reachable t ->
    (forall tm : Timer,
        In tm (timers t) ->
        delay tm = 300 /\
        fire tm <> Js.Undefined /\
        (In (target tm) (Js.keys pages) \/
         In (target tm) Js.Object_prototype)) /\
    (List.length (timers t) <= List.length (history t))%nat.
Proof.
  intros t H. destruct (reachable_session_ok t H) as (_ & _ & _ & H4 & H5).
  split; [|exact H5].
  intros tm Hin. rewrite Forall_forall in H4.
  destruct (H4 tm Hin) as [Hd Hf].
  split; [exact Hd|]. split.
  - intros E. rewrite E in Hf. discriminate Hf.
  - apply truthy_get. exact Hf.
Qed.

Lemma handle_history :
  forall (e : Event) (t : Terminal),
    exists suffix : list string,
      history (handle e t) = (history t ++ suffix)%list /\
      Forall trimmed suffix /\ (List.length suffix <= 1)%nat.
Proof.
  intros [key|v] t; cbn [handle].
  2: { exists []. rewrite app_nil_r. repeat split; [constructor|cbn; lia]. }
  destruct (String.eqb_spec key "Enter") as [->|HE].
  { assert (E : history (handleKeyDown "Enter" t)
                = history (executeCommand (Js.trim (value t)) t))
      by reflexivity.
    rewrite E.
    destruct (String.eqb_spec (Js.trim (value t)) "") as [Hc|Hc].
    - rewrite Hc. exists []. rewrite app_nil_r.
      repeat split; [constructor|cbn; lia].
    - destruct (executeCommand_effect _ t Hc) as (_ & _ & Hh & _).
      exists [Js.trim (value t)]. rewrite Hh.
      repeat split; [|cbn; lia].
      constructor; [|constructor].
      split; [exact Hc|apply trim_idempotent]. }
  exists []. rewrite app_nil_r.
  split; [|split; [constructor|cbn; lia]].
  destruct (String.eqb_spec key "ArrowUp") as [->|HU];
    [apply (arrows_frame "ArrowUp"); tauto|].
  destruct (String.eqb_spec key "ArrowDown") as [->|HD];
    [apply (arrows_frame "ArrowDown"); tauto|].
  destruct (String.eqb_spec key "Tab") as [->|HT];
    [apply (handleTabCompletion_frame t)|].
  unfold handleKeyDown.
  apply String.eqb_neq in HE, HU, HD, HT. rewrite HE, HU, HD, HT.
  reflexivity.
Qed.

(** X14. The history only grows, and by at most one entry for each event:
    after any events on any terminal it is the history from before,
    followed by entries that are trimmed, non-empty texts. *)
Theorem history_only_grows :
  forall (es : list Event) (t : Terminal),
    exists suffix : list string,
      history (run es t) = (history t ++ suffix)%list /\
      Forall trimmed suffix /\
      (List.length suffix <= List.length es)%nat.
Proof.
  induction es as [|e es IH]; intros t.
  - exists []. rewrite app_nil_r. repeat split; [constructor|cbn; lia].
  - change (run (e :: es) t) with (run es (handle e t)).
    destruct (IH (handle e t)) as (s2 & H2 & F2 & L2).
    destruct (handle_history e t) as (s1 & H1 & F1 & L1).
    exists (s1 ++ s2)%list. rewrite H2, H1, <- app_assoc.
    split; [reflexivity|]. split.
    + apply Forall_app. split; assumption.
    + rewrite length_app. cbn [List.length]. lia.
Qed.

(** ** More on the arrow keys *)

(** One Down from a cursor that is on an entry. *)
Lemma down_step :
  forall t : Terminal,
    0 <= historyIndex t ->
    handleKeyDown "ArrowDown" t
    = if (Z.of_nat (List.length (history t)) <=? historyIndex t + 1)%Z
      then set_value "" (set_historyIndex (-1)
                           (set_historyIndex (historyIndex t + 1) t))
      else set_value
             (Js.DOMString (history_at t (historyIndex t + 1)))
             (set_historyIndex (historyIndex t + 1) t).
Proof.
  intros t H. rewrite handleKeyDown_ArrowDown.
  destruct (Z.leb_spec 0 (historyIndex t)); [reflexivity|lia].
Qed.

Lemma history_at_entry :
  forall (t : Terminal) (i : Z),
    0 <= i < Z.of_nat (List.length (history t)) ->
    exists c : string,
      history_at t i = Some c /\
      nth_error (history t) (Z.to_nat i) = Some c /\
      In c (history t).
Proof.
  intros t i H. unfold history_at.
  destruct (Z.ltb_spec i 0); [lia|].
  destruct (nth_error (history t) (Z.to_nat i)) as [c|] eqn:E.
  - exists c. repeat split. apply (nth_error_In _ _ E).
  - apply nth_error_None in E. lia.
Qed.

(** X15. With the cursor on an entry that is not the oldest one, Up then
    Down comes back: the cursor is where it was and the input field shows
    the entry under it. *)
Theorem up_then_down_comes_back :
  forall t : Terminal,
    0 < historyIndex t < Z.of_nat (List.length (history t)) ->
    historyIndex (handleKeyDown "ArrowDown" (handleKeyDown "ArrowUp" t))
    = historyIndex t /\
    Some (value (handleKeyDown "ArrowDown" (handleKeyDown "ArrowUp" t)))
    = nth_error (history t) (Z.to_nat (historyIndex t)).
Proof.
  intros t H. rewrite up_step by lia.
  rewrite down_step
    by (cbn [set_value set_historyIndex historyIndex]; lia).
  cbn [set_value set_historyIndex historyIndex history].
  destruct (Z.leb_spec (Z.of_nat (List.length (history t)))
              (historyIndex t - 1 + 1)); [lia|].
  cbn [set_value set_historyIndex historyIndex value].
  replace (historyIndex t - 1 + 1) with (historyIndex t) by lia.
  split; [reflexivity|].
  destruct (history_at_entry t (historyIndex t)) as (c & Hc & Hn & _);
    [lia|].
  unfold history_at in *. cbn [set_value set_historyIndex history].
  rewrite Hc, Hn. reflexivity.
Qed.

(** X16. From the sentinel, with a history that is not empty, Up then Down
    ends on the sentinel with an empty input field: the text that was in
    the field before the two keys is lost. *)
Theorem up_then_down_drops_draft :
  forall t : Terminal,
    historyIndex t = -1 ->
    history t <> [] ->
    historyIndex (handleKeyDown "ArrowDown" (handleKeyDown "ArrowUp" t)) = -1
    /\ value (handleKeyDown "ArrowDown" (handleKeyDown "ArrowUp" t)) = "".
Proof.
  intros t Hs Hh.
  assert (Hl : (0 < List.length (history t))%nat)
    by (destruct (history t); [contradiction|cbn; lia]).
  rewrite up_sentinel by assumption.
  rewrite up_step by (cbn [set_historyIndex historyIndex history]; lia).
  rewrite down_step
    by (cbn [set_value set_historyIndex historyIndex]; lia).
  cbn [set_value set_historyIndex historyIndex history].
  destruct (Z.leb_spec (Z.of_nat (List.length (history t)))
              (Z.of_nat (List.length (history t)) - 1 + 1)); [|lia].
  split; reflexivity.
Qed.

Lemma press_add :
  forall (n m : nat) (key : string) (t : Terminal),
    press (n + m) key t = press m key (press n key t).
Proof.
  induction n as [|n IH]; intros m key t; [reflexivity|].
  change (press (S n + m) key t) with (press (n + m) key (handleKeyDown key t)).
  rewrite IH. reflexivity.
Qed.

Lemma up_at_oldest :
  forall (n : nat) (t : Terminal),
    historyIndex t = 0 -> press n "ArrowUp" t = t.
Proof.
  induction n as [|n IH]; intros t H; [reflexivity|].
  rewrite press_S.
  assert (E : handleKeyDown "ArrowUp" t = t).
  { rewrite handleKeyDown_ArrowUp.
    destruct (0 <? List.length (history t))%nat; [|reflexivity].
    cbv zeta.
    destruct (Z.eqb_spec (historyIndex t) (-1)); [lia|].
    destruct (Z.ltb_spec 0 (historyIndex t)); [lia|reflexivity]. }
  rewrite E. apply IH. exact H.
Qed.

(** X17. Up stops at the oldest entry: from the sentinel, as many Ups as
    there are entries, or more, leave the cursor on index 0 and the oldest
    entry in the input field. *)
Theorem up_stops_at_oldest :
  forall (t : Terminal) (oldest : string) (others : list string) (n : nat),
    historyIndex t = -1 ->
    history t = oldest :: others ->
    (List.length (history t) <= n)%nat ->
    historyIndex (press n "ArrowUp" t) = 0 /\
    value (press n "ArrowUp" t) = oldest.
Proof.
  intros t oldest others n Hs Hh Hn.
  replace n with (List.length (history t) + (n - List.length (history t)))%nat
    by lia.
  rewrite press_add.
  destruct (press_up_recalls t 0 oldest Hs) as [Hv Hi].
  { rewrite Hh. reflexivity. }
  rewrite Nat.sub_0_r in Hv, Hi.
  rewrite up_at_oldest by exact Hi.
  split; [exact Hi|exact Hv].
Qed.

Lemma press_down_from :
  forall (k : nat) (t : Terminal),
    0 <= historyIndex t ->
    historyIndex t + Z.of_nat (S k) = Z.of_nat (List.length (history t)) ->
    historyIndex (press (S k) "ArrowDown" t) = -1 /\
    value (press (S k) "ArrowDown" t) = "" /\
    history (press (S k) "ArrowDown" t) = history t.
Proof.
  induction k as [|k IH]; intros t H0 H.
  - rewrite press_S, down_step by lia.
    destruct (Z.leb_spec (Z.of_nat (List.length (history t)))
                (historyIndex t + 1)); [|lia].
    repeat split.
  - rewrite press_S, down_step by lia.
    destruct (Z.leb_spec (Z.of_nat (List.length (history t)))
                (historyIndex t + 1)); [lia|].
    destruct (IH (set_value
                    (Js.DOMString (history_at t (historyIndex t + 1)))
                    (set_historyIndex (historyIndex t + 1) t)))
      as (Hi & Hv & Hh).
    + cbn [set_value set_historyIndex historyIndex]. lia.
    + cbn [set_value set_historyIndex historyIndex history]. lia.
    + rewrite Hi, Hv, Hh. repeat split.
Qed.

(** X18. Down leaves the history by its newest end: with the cursor on the
    entry of index [i], as many Downs as there are entries from it to the
    newest put the cursor back on the sentinel and empty the input
    field. *)
Theorem down_reaches_sentinel :
  forall t : Terminal,
    0 <= historyIndex t < Z.of_nat (List.length (history t)) ->
    historyIndex
      (press (List.length (history t) - Z.to_nat (historyIndex t))
         "ArrowDown" t) = -1 /\
    value
      (press (List.length (history t) - Z.to_nat (historyIndex t))
         "ArrowDown" t) = "".
Proof.
  intros t H.
  destruct (List.length (history t) - Z.to_nat (historyIndex t))%nat
    as [|k] eqn:E; [lia|].
  destruct (press_down_from k t) as (Hi & Hv & _); [lia|lia|].
  split; assumption.
Qed.

(** X19. In a state whose cursor is the sentinel or the index of an entry,
    as all the states of a session are, an arrow key only reads the
    history inside its bounds: the input field keeps its text, or becomes
    empty, or shows an entry of the history. *)
Theorem arrows_show_entries :
  forall (key : string) (t : Terminal),
    key = "ArrowUp" \/ key = "ArrowDown" ->
    cursor_ok t ->
    value (handleKeyDown key t) = value t \/
    value (handleKeyDown key t) = "" \/
    In (value (handleKeyDown key t)) (history t).
Proof.
  intros key t [-> | ->] Hc; unfold cursor_ok in Hc.
  - destruct (Nat.ltb_spec 0 (List.length (history t))) as [Hl|Hl].
    + destruct (Z.eq_dec (historyIndex t) (-1)) as [Hs|Hs].
      * rewrite up_sentinel by assumption.
        rewrite up_step
          by (cbn [set_historyIndex historyIndex history]; lia).
        cbn [set_value set_historyIndex historyIndex history value].
        destruct (history_at_entry t
                    (Z.of_nat (List.length (history t)) - 1))
          as (c & E & _ & Hin); [lia|].
        unfold history_at in *. cbn [set_historyIndex history].
        rewrite E. right. right. exact Hin.
      * destruct (Z.eq_dec (historyIndex t) 0) as [Hz|Hz].
        -- rewrite (up_at_oldest 1 t Hz : handleKeyDown "ArrowUp" t = t).
           left. reflexivity.
        -- rewrite up_step by lia.
           destruct (history_at_entry t (historyIndex t - 1))
             as (c & E & _ & Hin); [lia|].
           cbn [set_value value]. rewrite E. right. right. exact Hin.
    + rewrite handleKeyDown_ArrowUp.
      destruct (Nat.ltb_spec 0 (List.length (history t))); [lia|].
      left. reflexivity.
  - destruct (Z.eq_dec (historyIndex t) (-1)) as [Hs|Hs].
    + rewrite handleKeyDown_ArrowDown, Hs. left. reflexivity.
    + rewrite down_step by lia.
      destruct (Z.leb_spec (Z.of_nat (List.length (history t)))
                  (historyIndex t + 1)).
      * right. left. reflexivity.
      * destruct (history_at_entry t (historyIndex t + 1))
          as (c & E & _ & Hin); [lia|].
        cbn [set_value value]. rewrite E. right. right. exact Hin.
Qed.

(** ** More on Enter *)

(** [executeCommand] does not read the input field. *)
Lemma executeCommand_ignores_value :
  forall (c v1 v2 : string) (t : Terminal),
    set_value "" (executeCommand c (set_value v1 t))
    = set_value "" (executeCommand c (set_value v2 t)).
Proof.
  intros c v1 v2 t. unfold executeCommand.
  destruct (c =? ""); [reflexivity|].
  unfold dispatch, handleCd, handleCat.
  repeat match goal with
         | |- context [if ?x =? ?s then _ else _] => destruct (x =? s)
         end;
    try destruct (commandArgs c) as [|a args];
    try destruct (Js.truthy (Js.get pages (toLowerCase a)));
    run_handlers; reflexivity.
Qed.

(** X20. The white space around a command does not count: committing a
    text and committing the same text trimmed leave the terminal in the
    same state. *)
Theorem commit_trimmed :
  forall (v : string) (t : Terminal),
    run (commit v) t = run (commit (Js.trim v)) t.
Proof.
  intros v t.
  change (set_historyIndex (-1)
            (set_value "" (executeCommand (Js.trim v) (set_value v t)))
          = set_historyIndex (-1)
              (set_value ""
                 (executeCommand (Js.trim (Js.trim v))
                    (set_value (Js.trim v) t)))).
  rewrite trim_idempotent.
  rewrite (executeCommand_ignores_value (Js.trim v) v (Js.trim v) t).
  reflexivity.
Qed.

(** X21. In every state of a session the cursor is the sentinel or the
    index of an entry: the value one past the newest entry, which the Up
    key uses on its way, is never left in the cursor. *)
Theorem cursor_on_entry :
  forall t : Terminal,
    reachable t ->
    historyIndex t = -1 \/
    exists c : string,
      0 <= historyIndex t /\
      nth_error (history t) (Z.to_nat (historyIndex t)) = Some c.
Proof.
  intros t H. destruct (reachable_invariant t H) as [[Hs|Hc] _].
  - left. exact Hs.
  - right. destruct (history_at_entry t (historyIndex t) Hc)
      as (c & _ & Hn & _).
    exists c. split; [lia|exact Hn].
Qed.

Lemma mem_false :
  forall (k : string) (l : list string), ~ In k l -> Js.mem k l = false.
Proof.
  intros k l H. unfold Js.mem.
  destruct (existsb (String.eqb k) l) eqn:E; [|reflexivity].
  apply existsb_exists in E as (x & Hx & Ex).
  apply String.eqb_eq in Ex. subst x. contradiction.
Qed.

(** X22. Committing [cd] with one word that, in lower case, is neither a
    key of the route table nor the name of a property of
    [Object.prototype] reports the unknown page, in lower case, then the
    listing of the pages, and schedules no navigation. *)
Theorem cd_reports_unknown_page :
  forall (xyz : string) (t : Terminal),
    word xyz = true ->
    Js.trim ("cd " ++ xyz) = "cd " ++ xyz ->
    ~ In (toLowerCase xyz) (Js.keys pages) ->
    ~ In (toLowerCase xyz) Js.Object_prototype ->
    appended (run (commit ("cd " ++ xyz)) t)
    = (appended t
       ++ [echo ("cd " ++ xyz);
           mkLine ("cd: no such page: " ++ toLowerCase xyz)
                  "terminal-line ";
           mkLine ("Available pages: " ++ Js.join ", " listed)
                  "terminal-line "])%list /\
    timers (run (commit ("cd " ++ xyz)) t) = timers t.
Proof.
  intros xyz t Hw Ht Hk Hp.
  assert (E : run (commit ("cd " ++ xyz)) t
              = set_historyIndex (-1)
                  (set_value ""
                     (executeCommand (Js.trim ("cd " ++ xyz))
                        (set_value ("cd " ++ xyz) t))))
    by reflexivity.
  rewrite E, Ht.
  exact (cd_unknown_page xyz (set_value ("cd " ++ xyz) t) Hw Hk
           (mem_false _ _ Hp)).
Qed.

(** ** Texts outside ASCII *)

Example trim_unicode_ex :
  Js.trim (Js.nbsp ++ " cd pro" ++ Js.bom ++ " ") = "cd pro".
Proof. reflexivity. Qed.

(** A no-break space after a command is not recorded with it. *)
Example enter_nbsp_ex :
  history (handleKeyDown "Enter" (set_value ("ls" ++ Js.nbsp) fresh))
  = ["ls"].
Proof. reflexivity. Qed.

(** A field of white space outside ASCII is a blank one. *)
Example enter_blank_ex :
  handleKeyDown "Enter" (set_value (Js.nbsp ++ Js.bom) fresh) = fresh.
Proof. reflexivity. Qed.

(** With the lower case that Unicode gives the Kelvin sign, Tab completes
    a prefix that ends with it, and [cd] finds the page. *)
Example tab_kelvin_ex :
  unicode_lower ("cheeseca" ++ Js.kelvin) = "cheesecak" ->
  value (handleKeyDown "Tab" (set_value ("cd cheeseca" ++ Js.kelvin) fresh))
  = "cd cheesecake".
Proof.
  intros H. cbv in H. cbv. rewrite H. reflexivity.
Qed.

Example cd_kelvin_ex :
  unicode_lower ("cheeseca" ++ Js.kelvin ++ "e") = "cheesecake" ->
  timers (executeCommand ("cd cheeseca" ++ Js.kelvin ++ "e") fresh)
  = [mkTimer "cheesecake" 300].
Proof.
  intros H. cbv in H. cbv. rewrite H. reflexivity.
Qed.

End Terminal.

(** * The theorems at work

    The terminal is run on ASCII texts, for which [toLowerCase] consults no
    table: the lower-casing of ASCII stands for it. *)

Lemma lower_ascii_stable :
  forall s : string,
    Js.toLowerCase Js.lower_ascii (Js.lower_ascii s) = Js.lower_ascii s.
Proof.
  intros s. unfold Js.toLowerCase.
  destruct (Js.ascii_only (Js.lower_ascii s));
    apply lower_ascii_idempotent.
Qed.

Example session_ex :
  value (run Js.lower_ascii (commit "cd pro" ++ [Edit "cd pro x"; KeyDown
      "Tab"])%list init)
  = "cd projects".
Proof. reflexivity. Qed.

Lemma enter_appends_history_and_echo_witness :
  Js.trim (value (set_value "  cd resume " init)) <> "" /\
  exists rest : list Line,
    history (handleKeyDown Js.lower_ascii "Enter" (set_value "  cd resume "
        init))
    = (history (set_value "  cd resume " init)
       ++ [Js.trim (value (set_value "  cd resume " init))])%list /\
    appended (handleKeyDown Js.lower_ascii "Enter" (set_value "  cd resume "
        init))
    = (appended (set_value "  cd resume " init)
       ++ echo (Js.trim (value (set_value "  cd resume " init)))
       :: rest)%list /\
    Forall plain rest /\
    ~ plain (echo (Js.trim (value (set_value "  cd resume " init)))) /\
    text (echo (Js.trim (value (set_value "  cd resume " init))))
    = "visitor@marlonjr:~$ "
      ++ Js.trim (value (set_value "  cd resume " init)) /\
    output (handleKeyDown Js.lower_ascii "Enter" (set_value "  cd resume "
        init))
    = (if commandName Js.lower_ascii (Js.trim (value (set_value "  cd resume "
        init)))
          =? "clear"
       then []
       else output (set_value "  cd resume " init)
            ++ echo (Js.trim (value (set_value "  cd resume " init)))
            :: rest)%list.
Proof.
  split.
  - vm_compute. discriminate.
  - apply (enter_appends_history_and_echo Js.lower_ascii (set_value
      "  cd resume " init)).
    vm_compute. discriminate.
Defined.

Lemma blank_commit_changes_nothing_witness :
  Js.blank (value (set_value "   " init)) = true /\
  history (handleKeyDown Js.lower_ascii "Enter" (set_value "   " init))
  = history (set_value "   " init) /\
  output (handleKeyDown Js.lower_ascii "Enter" (set_value "   " init))
  = output (set_value "   " init).
Proof.
  split; [reflexivity|].
  destruct (blank_commit_changes_nothing Js.lower_ascii (set_value "   " init)
      eq_refl)
    as (_ & Hh & Ho & _).
  split; assumption.
Defined.

Lemma history_navigation_ls_pwd_help_witness :
  value (press Js.lower_ascii 3 "ArrowUp"
           (run Js.lower_ascii (commit "ls" ++ commit "pwd" ++ commit
               "help")%list init))
  = "ls" /\
  value (press Js.lower_ascii 3 "ArrowDown"
           (press Js.lower_ascii 4 "ArrowUp"
              (run Js.lower_ascii (commit "ls" ++ commit "pwd" ++ commit
                  "help")%list init)))
  = "".
Proof.
  destruct (history_navigation_ls_pwd_help Js.lower_ascii init eq_refl eq_refl
      _ eq_refl)
    as (_ & _ & _ & _ & H3 & _ & _ & _ & H7 & _).
  split; assumption.
Defined.

Lemma historyIndex_invariant_witness :
  (historyIndex (run Js.lower_ascii (commit "ls" ++ [KeyDown "ArrowUp"])%list
      init) = -1 \/
   0 <= historyIndex (run Js.lower_ascii (commit "ls" ++ [KeyDown
       "ArrowUp"])%list init)
     <= Z.of_nat
          (List.length
             (history (run Js.lower_ascii (commit "ls" ++ [KeyDown
                 "ArrowUp"])%list init))))
  /\
  historyIndex
    (handleKeyDown Js.lower_ascii "ArrowDown" (mkTerminal ["ls"; "pwd"] 2 "/"
        "" [] [] []))
  = -1.
Proof.
  split.
  - apply (proj1 (historyIndex_invariant Js.lower_ascii)).
    apply (reachable_run Js.lower_ascii), (reachable_init Js.lower_ascii).
  - apply (proj2 (historyIndex_invariant Js.lower_ascii)). reflexivity.
Defined.

Lemma currentPath_is_root_witness :
  currentPath (run Js.lower_ascii (commit "cd" ++ commit "cd blog")%list init)
      = "/".
Proof.
  apply (currentPath_is_root Js.lower_ascii (run Js.lower_ascii (commit "cd"
      ++ commit "cd blog")%list init)).
  apply (reachable_run Js.lower_ascii), (reachable_init Js.lower_ascii).
Defined.

Lemma cd_known_page_witness :
  In ("resume", "/resume") pages /\
  timers (run Js.lower_ascii (commit ("cd " ++ "resume")) init) = [mkTimer
      "resume" 300] /\
  fire (mkTimer "resume" 300) = Js.Str "/resume".
Proof.
  assert (H : In ("resume", "/resume") pages) by (cbn; tauto).
  split; [exact H|].
  destruct (cd_known_page Js.lower_ascii "resume" "/resume" init H) as (_ & _
      & Ht & Hf).
  split; assumption.
Defined.

Lemma route_table_shape_witness :
  In "about" listed /\ List.length (aliases "/about") = 1%nat.
Proof.
  destruct (route_table_shape Js.lower_ascii) as (_ & _ & _ & _ & Hone &
      Hlisted & _).
  split.
  - apply Hlisted. cbn. repeat split; (tauto || discriminate).
  - apply Hone; [vm_compute; tauto | discriminate].
Defined.

Lemma tab_completion_witness :
  value (handleKeyDown Js.lower_ascii "Tab" (set_value "cd pro" init)) =
      "cd projects" /\
  appended (handleKeyDown Js.lower_ascii "Tab" (set_value " cd T" init))
  = (appended init
     ++ [mkLine "tools  templates  terms" "terminal-line "])%list /\
  handleKeyDown Js.lower_ascii "Tab" (set_value "ls" init) = set_value "ls"
      init.
Proof.
  destruct (tab_completion Js.lower_ascii (set_value "cd pro" init) "cd" "pro"
      ["projects"]
              eq_refl eq_refl eq_refl) as (_ & _ & H1).
  destruct (tab_completion Js.lower_ascii (set_value " cd T" init) "cd" "T"
              ["tools"; "templates"; "terms"]
              eq_refl eq_refl eq_refl) as (_ & _ & H2).
  destruct (tab_completion Js.lower_ascii (set_value "ls" init) "ls" ""
      (Js.keys pages)
              eq_refl eq_refl eq_refl) as (_ & H3 & _).
  split; [|split].
  - destruct (H1 eq_refl ltac:(discriminate)) as (H & _).
    rewrite (H "projects" eq_refl). reflexivity.
  - destruct (H2 eq_refl ltac:(discriminate)) as (_ & _ & _ & H).
    destruct (H ltac:(cbn; lia)) as (_ & _ & _ & Ha).
    exact Ha.
  - apply H3. intros [H _]. discriminate H.
Defined.

Lemma clear_frame_witness :
  nth_error (history (run Js.lower_ascii (commit "ls" ++ commit "pwd")%list
      init)) 0
  = Some "ls" /\
  value (press Js.lower_ascii 3 "ArrowUp"
           (run Js.lower_ascii (commit "clear")
              (run Js.lower_ascii (commit "ls" ++ commit "pwd")%list init))) =
                  "ls".
Proof.
  split; [reflexivity|].
  destruct (clear_frame Js.lower_ascii (run Js.lower_ascii (commit "ls" ++
      commit "pwd")%list init))
    as (_ & _ & _ & _ & H).
  apply (H 0%nat "ls"). reflexivity.
Defined.

Lemma unknown_command_reported_witness :
  text (last (output (executeCommand Js.lower_ascii "Whoami now" init))
      (mkLine "" ""))
  = "Command not found: whoami. Type " ++ dquote ++ "help" ++ dquote
    ++ " for available commands.".
Proof.
  rewrite (unknown_command_reported Js.lower_ascii "Whoami now" init).
  - reflexivity.
  - discriminate.
  - cbn. intros H.
    repeat (destruct H as [H|H]; [discriminate H|]). exact H.
Defined.

Lemma cat_never_finds_witness :
  appended (executeCommand Js.lower_ascii "CAT Notes.txt more" init)
  = (appended init
     ++ [echo "CAT Notes.txt more";
         mkLine "cat: Notes.txt: No such file or directory"
                "terminal-line "])%list.
Proof.
  destruct (cat_never_finds Js.lower_ascii "CAT Notes.txt more" init eq_refl)
    as (_ & _ & _ & H).
  apply (H "Notes.txt" ["more"]). reflexivity.
Defined.

Lemma cd_without_argument_witness :
  currentPath (executeCommand Js.lower_ascii "CD" (set_currentPath
      "/elsewhere" init)) = "/".
Proof.
  apply (cd_without_argument Js.lower_ascii "CD" (set_currentPath "/elsewhere"
      init));
    reflexivity.
Defined.

Lemma only_cd_navigates_witness :
  timers (executeCommand Js.lower_ascii "ls resume" init) = timers init /\
  currentPath (executeCommand Js.lower_ascii "ls resume" init) = currentPath
      init.
Proof.
  apply (only_cd_navigates Js.lower_ascii "ls resume" init). discriminate.
Defined.

Lemma cd_two_spaces_witness :
  Js.trim ("cd  " ++ "resume") = "cd  " ++ "resume" /\
  timers (run Js.lower_ascii (commit ("cd  " ++ "resume")) init) = timers init.
Proof.
  split; [reflexivity|].
  apply (cd_two_spaces Js.lower_ascii "resume" init). reflexivity.
Defined.

Lemma tab_then_enter_navigates_witness :
  exists path : string,
    In ("projects", path) pages /\
    fire (mkTimer "projects" 300) = Js.Str path /\
    timers (run Js.lower_ascii [KeyDown "Tab"; KeyDown "Enter"] (set_value
        " cd PRO" init))
    = (timers (set_value " cd PRO" init) ++ [mkTimer "projects" 300])%list /\
    history (run Js.lower_ascii [KeyDown "Tab"; KeyDown "Enter"] (set_value
        " cd PRO" init))
    = (history (set_value " cd PRO" init) ++ [("cd " ++
        "projects")%string])%list.
Proof.
  apply (tab_then_enter_navigates Js.lower_ascii (set_value " cd PRO" init)
      "projects").
  - reflexivity.
  - reflexivity.
  - discriminate.
Defined.

Lemma history_entries_trimmed_witness :
  Js.trim "cd  Blog" = "cd  Blog".
Proof.
  apply ((history_entries_trimmed Js.lower_ascii)
           (run Js.lower_ascii (commit "   " ++ commit "  cd  Blog ")%list
               init) "cd  Blog").
  - apply (reachable_run Js.lower_ascii), (reachable_init Js.lower_ascii).
  - cbn. left. reflexivity.
Defined.

Lemma echoes_follow_history_witness :
  filter is_echo
    (appended (run Js.lower_ascii (commit "help" ++ commit "clear" ++ commit
        "nope")%list
                 init))
  = [echo "help"; echo "clear"; echo "nope"].
Proof.
  apply ((echoes_follow_history Js.lower_ascii)
           (run Js.lower_ascii (commit "help" ++ commit "clear" ++ commit
               "nope")%list init)).
  apply (reachable_run Js.lower_ascii), (reachable_init Js.lower_ascii).
Defined.

Lemma output_is_latest_lines_witness :
  exists before : list Line,
    appended (run Js.lower_ascii (commit "help" ++ commit "clear" ++ commit
        "ls")%list init)
    = (before
       ++ output
            (run Js.lower_ascii (commit "help" ++ commit "clear" ++ commit
                "ls")%list
               init))%list.
Proof.
  apply ((output_is_latest_lines Js.lower_ascii)
           (run Js.lower_ascii (commit "help" ++ commit "clear" ++ commit
               "ls")%list init)).
  apply (reachable_run Js.lower_ascii), (reachable_init Js.lower_ascii).
Defined.

Lemma timers_of_a_session_witness :
  (List.length
     (timers (run Js.lower_ascii (commit "cd blog" ++ commit
         "cd nowhere")%list init))
   <= List.length
        (history (run Js.lower_ascii (commit "cd blog" ++ commit
            "cd nowhere")%list init)))%nat.
Proof.
  apply ((timers_of_a_session Js.lower_ascii)
           (run Js.lower_ascii (commit "cd blog" ++ commit "cd nowhere")%list
               init)).
  apply (reachable_run Js.lower_ascii), (reachable_init Js.lower_ascii).
Defined.

Lemma up_then_down_comes_back_witness :
  Some (value (handleKeyDown Js.lower_ascii "ArrowDown"
                 (handleKeyDown Js.lower_ascii "ArrowUp"
                    (mkTerminal ["ls"; "pwd"; "help"] 1 "/" "" [] [] []))))
  = Some "pwd".
Proof.
  apply ((up_then_down_comes_back Js.lower_ascii)
           (mkTerminal ["ls"; "pwd"; "help"] 1 "/" "" [] [] [])).
  cbn. lia.
Defined.

Lemma up_then_down_drops_draft_witness :
  value (handleKeyDown Js.lower_ascii "ArrowDown"
           (handleKeyDown Js.lower_ascii "ArrowUp"
              (set_value "cd proj" (run Js.lower_ascii (commit "ls") init))))
                  = "".
Proof.
  apply ((up_then_down_drops_draft Js.lower_ascii)
           (set_value "cd proj" (run Js.lower_ascii (commit "ls") init))).
  - reflexivity.
  - discriminate.
Defined.

Lemma up_stops_at_oldest_witness :
  value (press Js.lower_ascii 7 "ArrowUp" (run Js.lower_ascii (commit "ls" ++
      commit "pwd")%list init))
  = "ls".
Proof.
  apply ((up_stops_at_oldest Js.lower_ascii)
           (run Js.lower_ascii (commit "ls" ++ commit "pwd")%list init) "ls"
               ["pwd"] 7).
  - reflexivity.
  - reflexivity.
  - vm_compute. lia.
Defined.

Lemma down_reaches_sentinel_witness :
  value (press Js.lower_ascii 2 "ArrowDown"
           (mkTerminal ["ls"; "pwd"; "help"] 1 "/" "pwd" [] [] [])) = "".
Proof.
  apply ((down_reaches_sentinel Js.lower_ascii)
           (mkTerminal ["ls"; "pwd"; "help"] 1 "/" "pwd" [] [] [])).
  cbn. lia.
Defined.

Lemma arrows_show_entries_witness :
  value (handleKeyDown Js.lower_ascii "ArrowUp" (run Js.lower_ascii (commit
      "ls") init))
  = value (run Js.lower_ascii (commit "ls") init) \/
  value (handleKeyDown Js.lower_ascii "ArrowUp" (run Js.lower_ascii (commit
      "ls") init)) = "" \/
  In (value (handleKeyDown Js.lower_ascii "ArrowUp" (run Js.lower_ascii
      (commit "ls") init)))
     (history (run Js.lower_ascii (commit "ls") init)).
Proof.
  apply (arrows_show_entries Js.lower_ascii "ArrowUp" (run Js.lower_ascii
      (commit "ls") init)).
  - left. reflexivity.
  - left. reflexivity.
Defined.

Lemma cursor_on_entry_witness :
  historyIndex (run Js.lower_ascii (commit "ls" ++ commit "pwd"
                     ++ [KeyDown "ArrowUp"; KeyDown "ArrowUp"])%list init)
  = -1 \/
  exists c : string,
    0 <= historyIndex
           (run Js.lower_ascii (commit "ls" ++ commit "pwd"
                 ++ [KeyDown "ArrowUp"; KeyDown "ArrowUp"])%list init) /\
    nth_error
      (history
         (run Js.lower_ascii (commit "ls" ++ commit "pwd"
               ++ [KeyDown "ArrowUp"; KeyDown "ArrowUp"])%list init))
      (Z.to_nat
         (historyIndex
            (run Js.lower_ascii (commit "ls" ++ commit "pwd"
                  ++ [KeyDown "ArrowUp"; KeyDown "ArrowUp"])%list init)))
    = Some c.
Proof.
  apply ((cursor_on_entry Js.lower_ascii)
           (run Js.lower_ascii (commit "ls" ++ commit "pwd"
                 ++ [KeyDown "ArrowUp"; KeyDown "ArrowUp"])%list init)).
  apply (reachable_run Js.lower_ascii), (reachable_init Js.lower_ascii).
Defined.

Lemma cd_reports_unknown_page_witness :
  timers (run Js.lower_ascii (commit ("cd " ++ "Nowhere")) init) = timers init.
Proof.
  apply (cd_reports_unknown_page Js.lower_ascii "Nowhere" init).
  - reflexivity.
  - reflexivity.
  - cbn. intros H. repeat (destruct H as [H|H]; [discriminate H|]). exact H.
  - cbn. intros H. repeat (destruct H as [H|H]; [discriminate H|]). exact H.
Defined.

(** C8, as the spec states it, fails on the history: executing [clear]
    after [ls] leaves two entries in the history, [ls] and [clear], and the
    first Up then shows [clear]; this whatever the lower-casing is. *)
Lemma clear_is_recorded :
  ~ (exists lower : string -> string,
        output (executeCommand lower "clear" (run lower (commit "ls") init))
        = [] /\
        history (executeCommand lower "clear" (run lower (commit "ls") init))
        = history (run lower (commit "ls") init) /\
        historyIndex
          (executeCommand lower "clear" (run lower (commit "ls") init))
        = historyIndex (run lower (commit "ls") init) /\
        value (executeCommand lower "clear" (run lower (commit "ls") init))
        = value (run lower (commit "ls") init)).
Proof.
  intros (lower & _ & H & _). vm_compute in H. discriminate H.
Qed.

Lemma cd_first_argument_lower_case_witness :
  handleCd Js.lower_ascii ["Resume"; "now"] init
  = handleCd Js.lower_ascii [Js.toLowerCase Js.lower_ascii "Resume"] init.
Proof.
  apply (cd_first_argument_lower_case Js.lower_ascii lower_ascii_stable).
Defined.
